(** * patch-facefusion.py: the rewrite rules, the verifier and the entry point

    A shallow embedding of [scripts/vast/patch-facefusion.py].  The script
    reads two files, pushes their text through a fixed sequence of
    [re.sub] calls, writes a file back when its text changed, and then
    looks for marker substrings.

    The development has these layers:
    - [Re]: the fragment of Python's [re] module the script uses
      (a pattern parser, the backtracking matcher and [re.sub]), and
      [Fixed], the patterns that accept texts of one length only;
    - [Rules]: the ten pattern/replacement pairs and the two pure text
      transformers;
    - [Fs]: a file system with a log of operations and the small
      state-and-exception monad the script's functions run in, and
      [Script], the four functions of the script in that monad;
    - [Samples] and [Worlds]: concrete texts and checkouts;
    - the facts about each layer, and then the statements of the
      specification, C1 to C10. *)

From Stdlib Require Import List Ascii String Bool Arith Lia.
Import ListNotations.

Set Implicit Arguments.

(** ** Text *)

(** A Python [str] is modelled as the list of its characters. Every
    character the patterns and replacements mention is ASCII. *)
Definition text := list ascii.

Definition nl : ascii := "010"%char.
Definition tab : ascii := "009"%char.
Definition backslash : ascii := "\"%char.

(** [py s] reads a Rocq string the way Python reads a non-raw literal:
    backslash-n is a newline, backslash-t a tab. *)
Fixpoint py_chars (esc : bool) (s : string) : text :=
  match s with
  | EmptyString => if esc then [backslash] else []
  | String c s' =>
      if esc then
        (if Ascii.eqb c "n" then [nl]
         else if Ascii.eqb c "t" then [tab]
         else if Ascii.eqb c backslash then [backslash]
         else [backslash; c]) ++ py_chars false s'
      else if Ascii.eqb c backslash then py_chars true s'
      else c :: py_chars false s'
  end.

Definition py (s : string) : text := py_chars false s.

(** [raw s] reads a Rocq string the way Python reads an [r"..."] literal. *)
Definition raw (s : string) : text := list_ascii_of_string s.

Definition text_eq_dec : forall a b : text, {a = b} + {a <> b} :=
  list_eq_dec ascii_dec.

Definition text_eqb (a b : text) : bool :=
  if text_eq_dec a b then true else false.

(** Python's [needle in hay] on strings. *)
Fixpoint starts_with (needle hay : text) : bool :=
  match needle, hay with
  | [], _ => true
  | _ :: _, [] => false
  | a :: n', b :: h' => Ascii.eqb a b && starts_with n' h'
  end.

Fixpoint contains (needle hay : text) : bool :=
  starts_with needle hay ||
  match hay with
  | [] => false
  | _ :: h' => contains needle h'
  end.

(** ** The regular expressions of the script *)

Module Re.

(** What one pattern position accepts. *)
Inductive cset :=
| CChar (c : ascii)
| CAny
| CRange (rs : list (ascii * ascii)).

Inductive quant :=
| QOne
| QRep (n : nat)
| QStar
| QStarLazy
| QPlus.

Inductive node :=
| NSet (cs : cset) (q : quant)
| NBol
| NEol.

Definition regex := list node.

(** [re.MULTILINE] and [re.DOTALL]. *)
Record flags := Flags { multiline : bool; dotall : bool }.

Definition NOFLAGS := Flags false false.
Definition DOTALL := Flags false true.
Definition MULTILINE_DOTALL := Flags true true.

(** *** Parsing a pattern string

    The parser covers what the ten patterns are written with: literal
    characters, backslash escapes of punctuation and of [n] and [t], the
    dot, [^] and [$], bracketed classes of characters and ranges, the
    quantifiers [*], [*?], [+] and [{n}], and grouping parentheses that
    carry no quantifier.  Anything else is refused. *)

Inductive pmode :=
| PNormal
| PEscape
| PClass (acc : list ascii)
| PCount (have : bool) (n : nat).

Inductive plast := LNone | LAtom | LStar.

Definition is_digit (c : ascii) : bool :=
  (48 <=? nat_of_ascii c) && (nat_of_ascii c <=? 57).

Definition is_alnum (c : ascii) : bool :=
  let n := nat_of_ascii c in
  ((48 <=? n) && (n <=? 57)) || ((65 <=? n) && (n <=? 90)) ||
  ((97 <=? n) && (n <=? 122)).

Fixpoint ranges_of (cs : list ascii) : list (ascii * ascii) :=
  match cs with
  | [] => []
  | a :: rest =>
      match rest with
      | d :: b :: rest' =>
          if Ascii.eqb d "-" then (a, b) :: ranges_of rest'
          else (a, a) :: ranges_of rest
      | _ => (a, a) :: ranges_of rest
      end
  end.

Definition requantify (q : quant) (from : quant -> bool) (out : list node)
  : option (list node) :=
  match out with
  | NSet cs q0 :: out' => if from q0 then Some (NSet cs q :: out') else None
  | _ => None
  end.

Definition is_one (q : quant) : bool :=
  match q with QOne => true | _ => false end.

Definition is_star (q : quant) : bool :=
  match q with QStar => true | _ => false end.

Fixpoint parse_from (m : pmode) (lk : plast) (out : list node) (s : text)
  : option regex :=
  match s with
  | [] => match m with PNormal => Some (rev out) | _ => None end
  | c :: s' =>
      match m with
      | PEscape =>
          if Ascii.eqb c "n" then
            parse_from PNormal LAtom (NSet (CChar nl) QOne :: out) s'
          else if Ascii.eqb c "t" then
            parse_from PNormal LAtom (NSet (CChar tab) QOne :: out) s'
          else if is_alnum c then None
          else parse_from PNormal LAtom (NSet (CChar c) QOne :: out) s'
      | PClass acc =>
          if Ascii.eqb c "]" then
            match acc with
            | [] => None
            | _ => parse_from PNormal LAtom
                     (NSet (CRange (ranges_of (rev acc))) QOne :: out) s'
            end
          else if Ascii.eqb c backslash then None
          else if Ascii.eqb c "^" then None
          else parse_from (PClass (c :: acc)) lk out s'
      | PCount have n =>
          if is_digit c then
            parse_from (PCount true (10 * n + (nat_of_ascii c - 48))) lk out s'
          else if Ascii.eqb c "}" then
            if have then
              match requantify (QRep n) is_one out with
              | Some out' => parse_from PNormal LNone out' s'
              | None => None
              end
            else None
          else None
      | PNormal =>
          if Ascii.eqb c backslash then parse_from PEscape lk out s'
          else if Ascii.eqb c "[" then parse_from (PClass []) lk out s'
          else if Ascii.eqb c "." then
            parse_from PNormal LAtom (NSet CAny QOne :: out) s'
          else if Ascii.eqb c "^" then parse_from PNormal LNone (NBol :: out) s'
          else if Ascii.eqb c "$" then parse_from PNormal LNone (NEol :: out) s'
          else if Ascii.eqb c "(" then parse_from PNormal LNone out s'
          else if Ascii.eqb c ")" then parse_from PNormal LNone out s'
          else if Ascii.eqb c "|" then None
          else if Ascii.eqb c "*" then
            match lk, requantify QStar is_one out with
            | LAtom, Some out' => parse_from PNormal LStar out' s'
            | _, _ => None
            end
          else if Ascii.eqb c "+" then
            match lk, requantify QPlus is_one out with
            | LAtom, Some out' => parse_from PNormal LNone out' s'
            | _, _ => None
            end
          else if Ascii.eqb c "?" then
            match lk, requantify QStarLazy is_star out with
            | LStar, Some out' => parse_from PNormal LNone out' s'
            | _, _ => None
            end
          else if Ascii.eqb c "{" then
            match lk with
            | LAtom => parse_from (PCount false 0) lk out s'
            | _ => None
            end
          else parse_from PNormal LAtom (NSet (CChar c) QOne :: out) s'
      end
  end.

Definition parse (pattern : text) : option regex :=
  parse_from PNormal LNone [] pattern.

(** [re.compile]: the patterns of the script are constants that parse, so
    the failure branch is never taken by them (see [patterns_parse]). *)
Definition compile (pattern : text) : regex :=
  match parse pattern with
  | Some r => r
  | None => []
  end.

(** *** Matching at a position *)

Section Matcher.

Variable fl : flags.

Definition cset_mem (cs : cset) (c : ascii) : bool :=
  match cs with
  | CChar x => Ascii.eqb c x
  | CAny => dotall fl || negb (Ascii.eqb c nl)
  | CRange rs =>
      existsb (fun r => (nat_of_ascii (fst r) <=? nat_of_ascii c) &&
                        (nat_of_ascii c <=? nat_of_ascii (snd r))) rs
  end.

(** [^]: at the start of the text, and with MULTILINE after a newline. *)
Definition at_bol (prev : option ascii) : bool :=
  match prev with
  | None => true
  | Some c => multiline fl && Ascii.eqb c nl
  end.

(** [$]: at the end of the text or before a final newline, and with
    MULTILINE before any newline. *)
Definition at_eol (s : text) : bool :=
  match s with
  | [] => true
  | c :: s' =>
      Ascii.eqb c nl &&
      (multiline fl || match s' with [] => true | _ => false end)
  end.

(** A continuation gets the character before the current position and the
    rest of the text, and answers with the number of characters the rest of
    the pattern consumes in the first match the backtracking search finds. *)
Definition cont := option ascii -> text -> option nat.

Definition take_one (cs : cset) (k : cont) : cont :=
  fun prev s =>
    match s with
    | [] => None
    | c :: s' =>
        if cset_mem cs c then option_map S (k (Some c) s') else None
    end.

Fixpoint take_n (cs : cset) (k : cont) (n : nat) : cont :=
  match n with
  | 0 => k
  | S n' => take_one cs (take_n cs k n')
  end.

(** Lazy star: try the rest of the pattern first, take one more character
    only when that fails. *)
Fixpoint star_lazy (cs : cset) (k : cont) (prev : option ascii) (s : text)
  {struct s} : option nat :=
  match k prev s with
  | Some n => Some n
  | None =>
      match s with
      | [] => None
      | c :: s' =>
          if cset_mem cs c
          then option_map S (star_lazy cs k (Some c) s')
          else None
      end
  end.

(** Greedy star: take as many characters as possible, give them back one
    at a time while the rest of the pattern fails. *)
Fixpoint star_greedy (cs : cset) (k : cont) (prev : option ascii) (s : text)
  {struct s} : option nat :=
  match s with
  | [] => k prev s
  | c :: s' =>
      if cset_mem cs c then
        match star_greedy cs k (Some c) s' with
        | Some n => Some (S n)
        | None => k prev s
        end
      else k prev s
  end.

Fixpoint match_here (p : regex) : cont :=
  match p with
  | [] => fun _ _ => Some 0
  | nd :: p' =>
      let k := match_here p' in
      match nd with
      | NBol => fun prev s => if at_bol prev then k prev s else None
      | NEol => fun prev s => if at_eol s then k prev s else None
      | NSet cs QOne => take_one cs k
      | NSet cs (QRep n) => take_n cs k n
      | NSet cs QStar => star_greedy cs k
      | NSet cs QPlus => take_one cs (star_greedy cs k)
      | NSet cs QStarLazy => star_lazy cs k
      end
  end.

(** *** [re.sub]

    The text is scanned from the left.  Where the pattern matches, the
    replacement is emitted and the matched characters are skipped;
    elsewhere the character is copied.  [skip] counts the characters of
    the current match that are still to be dropped.  An empty match emits
    the replacement and copies the character, as Python 3.7 and later do. *)

Variable p : regex.
Variable repl : text.

Fixpoint sub_from (skip : nat) (prev : option ascii) (s : text) {struct s}
  : text :=
  match skip with
  | S k =>
      match s with
      | [] => []
      | c :: s' => sub_from k (Some c) s'
      end
  | 0 =>
      match match_here p prev s with
      | Some (S k) =>
          repl ++ match s with
                  | [] => []
                  | c :: s' => sub_from k (Some c) s'
                  end
      | Some 0 =>
          repl ++ match s with
                  | [] => []
                  | c :: s' => c :: sub_from 0 (Some c) s'
                  end
      | None =>
          match s with
          | [] => []
          | c :: s' => c :: sub_from 0 (Some c) s'
          end
      end
  end.

Definition sub (content : text) : text := sub_from 0 None content.

(** [re.search], as a test: does the pattern match anywhere from here on? *)
Fixpoint search_from (prev : option ascii) (s : text) {struct s} : bool :=
  match match_here p prev s with
  | Some _ => true
  | None =>
      match s with
      | [] => false
      | c :: s' => search_from (Some c) s'
      end
  end.

Definition search (content : text) : bool := search_from None content.


(** A text is settled when each match the scan meets is already the
    replacement text. *)
Fixpoint settled_from (skip : nat) (prev : option ascii) (s : text)
  {struct s} : bool :=
  match skip with
  | S k =>
      match s with
      | [] => true
      | c :: s' => settled_from k (Some c) s'
      end
  | 0 =>
      match match_here p prev s with
      | Some (S k) =>
          text_eqb (firstn (S k) s) repl &&
          match s with
          | [] => true
          | c :: s' => settled_from k (Some c) s'
          end
      | Some 0 =>
          text_eqb repl [] &&
          match s with
          | [] => true
          | c :: s' => settled_from 0 (Some c) s'
          end
      | None =>
          match s with
          | [] => true
          | c :: s' => settled_from 0 (Some c) s'
          end
      end
  end.

End Matcher.

Definition settled (fl : flags) (p : regex) (repl content : text) : bool :=
  settled_from fl p repl 0 None content.


End Re.

(** ** Patterns without star, plus or anchors

    Such a pattern accepts texts of one length only, a character class per
    position.  The first and the third rule of [patch_content_analyser]'s
    literal kind and the first two patterns of [patch_core] are of this
    kind. *)

Module Fixed.

Import Re.

Fixpoint fixed_of (p : regex) : option (list cset) :=
  match p with
  | [] => Some []
  | NSet cs QOne :: p' => option_map (cons cs) (fixed_of p')
  | NSet cs (QRep n) :: p' => option_map (app (repeat cs n)) (fixed_of p')
  | _ => None
  end.

Fixpoint tails {A} (u : list A) : list (list A) :=
  match u with
  | [] => []
  | _ :: u' => u :: tails u'
  end.

Section Accepts.

Variable fl : flags.

Fixpoint accepts (cs : list cset) (s : text) : bool :=
  match cs, s with
  | [], _ => true
  | _ :: _, [] => false
  | x :: cs', c :: s' => cset_mem fl x c && accepts cs' s'
  end.

(** [occurs cs s]: some position of [s] is accepted. *)
Fixpoint occurs (cs : list cset) (s : text) : bool :=
  accepts cs s ||
  match s with
  | [] => false
  | _ :: s' => occurs cs s'
  end.

(** [clash cs u]: [u] is rejected whatever follows it. *)
Fixpoint clash (cs : list cset) (u : text) : bool :=
  match cs, u with
  | x :: cs', c :: u' => negb (cset_mem fl x c) || clash cs' u'
  | _, _ => false
  end.

(** The replacement cannot take part in a new match: no match starts
    inside it, and none runs into it. *)
Definition stable (cs : list cset) (repl : text) : bool :=
  match cs with [] => false | _ => true end &&
  forallb (clash cs) (tails repl) &&
  forallb (fun cs' => clash cs' repl) (tails cs).

(** No character is in both classes (a sufficient test). *)
Definition disjoint (x y : cset) : bool :=
  match x, y with
  | CChar c, _ => negb (cset_mem fl y c)
  | _, CChar c => negb (cset_mem fl x c)
  | _, _ => false
  end.

(** No text is accepted by both lists of classes. *)
Fixpoint apart (cs1 cs2 : list cset) : bool :=
  match cs1, cs2 with
  | x :: cs1', y :: cs2' => disjoint x y || apart cs1' cs2'
  | _, _ => false
  end.

(** Two matches of the pattern cannot overlap. *)
Definition self_free (cs : list cset) : bool :=
  match cs with
  | [] => false
  | _ :: cs' => forallb (fun t => apart t cs) (tails cs')
  end.

End Accepts.

End Fixed.

(** ** The rewrite rules *)

Module Rules.

Import Re Fixed.

(** [re.sub(pattern, replacement, content, flags=...)].  None of the
    replacement texts holds a backslash (see [replacements_are_literal]),
    so [re.sub] inserts each of them as it is. *)
Definition re_sub (pattern repl content : text) (fl : flags) : text :=
  Re.sub fl (Re.compile pattern) repl content.

(** *** [patch_content_analyser] *)

Definition ca_pattern_1 : text :=
  raw "(@lru_cache\(\)\ndef create_static_model_set\(download_scope : DownloadScope\) -> ModelSet:.*?^\t\}$)".
Definition ca_replacement_1 : text :=
  py "@lru_cache()\ndef create_static_model_set(download_scope : DownloadScope) -> ModelSet:\n\t# PATCHED: NSFW models removed\n\treturn {}".

Definition ca_pattern_2 : text :=
  raw "def pre_check\(\) -> bool:.*?return conditional_download_hashes\(model_hash_set\) and conditional_download_sources\(model_source_set\)".
Definition ca_replacement_2 : text :=
  py "def pre_check() -> bool:\n\t# PATCHED: Skip NSFW model downloads\n\treturn True".

Definition ca_pattern_3 : text :=
  raw "def analyse_frame\(vision_frame : VisionFrame\) -> bool:\n\treturn detect_nsfw\(vision_frame\)".
Definition ca_replacement_3 : text :=
  py "def analyse_frame(vision_frame : VisionFrame) -> bool:\n\t# PATCHED: NSFW check disabled\n\treturn False".

Definition ca_pattern_4 : text :=
  raw "def analyse_stream\(vision_frame : VisionFrame, video_fps : Fps\) -> bool:.*?return False".
Definition ca_replacement_4 : text :=
  py "def analyse_stream(vision_frame : VisionFrame, video_fps : Fps) -> bool:\n\t# PATCHED: NSFW check disabled\n\treturn False".

Definition ca_pattern_5 : text :=
  raw "@lru_cache\(\)\ndef analyse_image\(image_path : str\) -> bool:\n\tvision_frame = read_image\(image_path\)\n\treturn analyse_frame\(vision_frame\)".
Definition ca_replacement_5 : text :=
  py "@lru_cache()\ndef analyse_image(image_path : str) -> bool:\n\t# PATCHED: NSFW check disabled\n\treturn False".

Definition ca_pattern_6 : text :=
  raw "@lru_cache\(\)\ndef analyse_video\(video_path : str, trim_frame_start : int, trim_frame_end : int\) -> bool:.*?return bool\(rate > 10\.0\)".
Definition ca_replacement_6 : text :=
  py "@lru_cache()\ndef analyse_video(video_path : str, trim_frame_start : int, trim_frame_end : int) -> bool:\n\t# PATCHED: NSFW check disabled\n\treturn False".

Definition ca_pattern_7 : text :=
  raw "def detect_nsfw\(vision_frame : VisionFrame\) -> bool:.*?return is_nsfw_1 and is_nsfw_2 or is_nsfw_1 and is_nsfw_3 or is_nsfw_2 and is_nsfw_3".
Definition ca_replacement_7 : text :=
  py "def detect_nsfw(vision_frame : VisionFrame) -> bool:\n\t# PATCHED: NSFW detection disabled\n\treturn False".

(** The seven steps, each on the text the step before left. *)
Definition ca_step_1 (content : text) : text :=
  re_sub ca_pattern_1 ca_replacement_1 content MULTILINE_DOTALL.
Definition ca_step_2 (content : text) : text :=
  re_sub ca_pattern_2 ca_replacement_2 content DOTALL.
Definition ca_step_3 (content : text) : text :=
  re_sub ca_pattern_3 ca_replacement_3 content NOFLAGS.
Definition ca_step_4 (content : text) : text :=
  re_sub ca_pattern_4 ca_replacement_4 content DOTALL.
Definition ca_step_5 (content : text) : text :=
  re_sub ca_pattern_5 ca_replacement_5 content NOFLAGS.
Definition ca_step_6 (content : text) : text :=
  re_sub ca_pattern_6 ca_replacement_6 content DOTALL.
Definition ca_step_7 (content : text) : text :=
  re_sub ca_pattern_7 ca_replacement_7 content DOTALL.

(** The text [patch_content_analyser] compares with the original. *)
Definition patch_content_analyser_text (content : text) : text :=
  let content := ca_step_1 content in
  let content := ca_step_2 content in
  let content := ca_step_3 content in
  let content := ca_step_4 content in
  let content := ca_step_5 content in
  let content := ca_step_6 content in
  let content := ca_step_7 content in
  content.

(** *** [patch_core] *)

Definition core_pattern_1 : text :=
  raw "content_analyser_hash == '[a-f0-9]{8}'".
Definition core_replacement_1 : text :=
  py "True  # PATCHED: Hash check bypassed".

Definition core_pattern_2 : text :=
  raw "\tcontent_analyser_content = inspect\.getsource\(content_analyser\)\.encode\(\)\n\tcontent_analyser_hash = hash_helper\.create_hash\(content_analyser_content\)\n\n\treturn all\(module\.pre_check\(\) for module in common_modules\) and content_analyser_hash == '[a-f0-9]{8}'".
Definition core_replacement_2 : text :=
  py "\t# PATCHED: Hash check removed\n\treturn all(module.pre_check() for module in common_modules)".

Definition core_pattern_3 : text :=
  raw "content_analyser_hash == '[a-f0-9]+'".
Definition core_replacement_3 : text :=
  py "True  # PATCHED".

Definition core_step_1 (content : text) : text :=
  re_sub core_pattern_1 core_replacement_1 content NOFLAGS.
Definition core_step_2 (content : text) : text :=
  re_sub core_pattern_2 core_replacement_2 content NOFLAGS.
Definition core_step_3 (content : text) : text :=
  re_sub core_pattern_3 core_replacement_3 content NOFLAGS.

(** The text [patch_core] compares with the original, and the numbers of
    the substitutions it ran to get there. *)
Definition patch_core_run (original : text) : text * list nat :=
  let content := original in
  let content := core_step_1 content in
  let content := core_step_2 content in
  if text_eqb content original
  then (core_step_3 content, [1; 2; 3])
  else (content, [1; 2]).

Definition patch_core_text (original : text) : text :=
  fst (patch_core_run original).

Definition patch_core_attempts (original : text) : list nat :=
  snd (patch_core_run original).

(** *** The rules, as the theorems speak of them *)

Definition all_patterns : list text :=
  [ca_pattern_1; ca_pattern_2; ca_pattern_3; ca_pattern_4; ca_pattern_5;
   ca_pattern_6; ca_pattern_7; core_pattern_1; core_pattern_2;
   core_pattern_3].

Definition ca_replacements : list text :=
  [ca_replacement_1; ca_replacement_2; ca_replacement_3; ca_replacement_4;
   ca_replacement_5; ca_replacement_6; ca_replacement_7].

Definition core_replacements : list text :=
  [core_replacement_1; core_replacement_2; core_replacement_3].

(** Whether a rule's pattern is found in a text. *)
Definition found (pattern : text) (fl : flags) (content : text) : bool :=
  Re.search fl (Re.compile pattern) content.

(** The classes of a pattern of fixed length, position by position. *)
Definition classes (pattern : text) : list cset :=
  match fixed_of (Re.compile pattern) with
  | Some cs => cs
  | None => []
  end.

Definition core_classes_1 : list cset := classes core_pattern_1.
Definition core_classes_2 : list cset := classes core_pattern_2.
Definition ca_classes_3 : list cset := classes ca_pattern_3.
Definition ca_classes_5 : list cset := classes ca_pattern_5.


(** The characters of the class [[a-f0-9]]. *)
Definition lower_hex (c : ascii) : bool :=
  cset_mem NOFLAGS (CRange [("a"%char, "f"%char); ("0"%char, "9"%char)]) c.

(** The comparison of the hash with the literal [h]. *)
Definition hash_comparison (h : text) : text :=
  raw "content_analyser_hash == '" ++ h ++ raw "'".

(** *** The rules as a table *)

Record rule := Rule {
  rule_pattern : text;
  rule_replacement : text;
  rule_flags : flags
}.

Definition apply_rule (r : rule) (content : text) : text :=
  re_sub (rule_pattern r) (rule_replacement r) content (rule_flags r).

Definition apply_rules (rs : list rule) (content : text) : text :=
  fold_left (fun c r => apply_rule r c) rs content.

(** The substitutions of [patch_content_analyser], in program order. *)
Definition content_analyser_rules : list rule :=
  [ Rule ca_pattern_1 ca_replacement_1 MULTILINE_DOTALL;
    Rule ca_pattern_2 ca_replacement_2 DOTALL;
    Rule ca_pattern_3 ca_replacement_3 NOFLAGS;
    Rule ca_pattern_4 ca_replacement_4 DOTALL;
    Rule ca_pattern_5 ca_replacement_5 NOFLAGS;
    Rule ca_pattern_6 ca_replacement_6 DOTALL;
    Rule ca_pattern_7 ca_replacement_7 DOTALL ].

(** The substitutions of [patch_core], in program order. *)
Definition core_rules : list rule :=
  [ Rule core_pattern_1 core_replacement_1 NOFLAGS;
    Rule core_pattern_2 core_replacement_2 NOFLAGS;
    Rule core_pattern_3 core_replacement_3 NOFLAGS ].

Definition rule_found (r : rule) (content : text) : bool :=
  found (rule_pattern r) (rule_flags r) content.

(** Each match the rule meets in the text is already its replacement. *)
Definition rule_settled (r : rule) (content : text) : bool :=
  Re.settled (rule_flags r) (Re.compile (rule_pattern r))
             (rule_replacement r) content.

Fixpoint take_while (f : ascii -> bool) (s : text) : text :=
  match s with
  | [] => []
  | c :: s' => if f c then c :: take_while f s' else []
  end.

Fixpoint drop_until (f : ascii -> bool) (s : text) : text :=
  match s with
  | [] => []
  | c :: s' => if f c then s else drop_until f s'
  end.

(** The text after the first occurrence of [needle]. *)
Fixpoint after (needle hay : text) : option text :=
  if starts_with needle hay then Some (skipn (List.length needle) hay)
  else match hay with
       | [] => None
       | _ :: h' => after needle h'
       end.

Definition is_ident_char (c : ascii) : bool :=
  is_alnum c || Ascii.eqb c "_".

(** The function a pattern is written against: the name after [def]. *)
Definition target_name (pattern : text) : option text :=
  option_map (take_while is_ident_char) (after (raw "def ") pattern).

(** The marker a replacement embeds: its comment, from the hash sign to
    the end of the line. *)
Definition marker_of (repl : text) : option text :=
  match drop_until (Ascii.eqb "#") repl with
  | [] => None
  | m => Some (take_while (fun c => negb (Ascii.eqb c nl)) m)
  end.

(** The positions (from 1) of the replacements that hold a marker. *)
Definition embedders (m : text) (repls : list text) : list nat :=
  map fst (filter (fun ir => contains m (snd ir))
                  (combine (seq 1 (List.length repls)) repls)).

(** The table without its rule at position [i] (from 0). *)
Definition without (i : nat) (rs : list rule) : list rule :=
  firstn i rs ++ skipn (S i) rs.

(** Both files at once: the moderation file and the integrity file. *)
Definition rewrite (both : text * text) : text * text :=
  (patch_content_analyser_text (fst both), patch_core_text (snd both)).

Definition all_settled (both : text * text) : bool :=
  forallb (fun r => rule_settled r (fst both)) content_analyser_rules &&
  forallb (fun r => rule_settled r (snd both)) core_rules.

End Rules.

(** ** Sample inputs *)

Module Samples.

(** A moderation file with the seven landmarks, laid out as upstream
    lays them out. *)
Definition content_analyser_py : text :=
  py "@lru_cache()\ndef create_static_model_set(download_scope : DownloadScope) -> ModelSet:\n\treturn\\\n\t{\n\t\t'nsfw_1':\n\t\t{\n\t\t}\n\t}\n\n\ndef pre_check() -> bool:\n\tmodel_hash_set, model_source_set = collect_model_downloads()\n\n\treturn conditional_download_hashes(model_hash_set) and conditional_download_sources(model_source_set)\n\n\ndef analyse_stream(vision_frame : VisionFrame, video_fps : Fps) -> bool:\n\tglobal STREAM_COUNTER\n\n\tSTREAM_COUNTER = STREAM_COUNTER + 1\n\tif STREAM_COUNTER % int(video_fps) == 0:\n\t\treturn analyse_frame(vision_frame)\n\treturn False\n\n\ndef analyse_frame(vision_frame : VisionFrame) -> bool:\n\treturn detect_nsfw(vision_frame)\n\n\n@lru_cache()\ndef analyse_image(image_path : str) -> bool:\n\tvision_frame = read_image(image_path)\n\treturn analyse_frame(vision_frame)\n\n\n@lru_cache()\ndef analyse_video(video_path : str, trim_frame_start : int, trim_frame_end : int) -> bool:\n\tvideo_fps = detect_video_fps(video_path)\n\trate = 0.0\n\treturn bool(rate > 10.0)\n\n\ndef detect_nsfw(vision_frame : VisionFrame) -> bool:\n\tis_nsfw_1 = detect_with_nsfw_1(vision_frame)\n\tis_nsfw_2 = detect_with_nsfw_2(vision_frame)\n\tis_nsfw_3 = detect_with_nsfw_3(vision_frame)\n\n\treturn is_nsfw_1 and is_nsfw_2 or is_nsfw_1 and is_nsfw_3 or is_nsfw_2 and is_nsfw_3\n".

(** An integrity file with the hash gate. *)
Definition core_py : text :=
  py "def common_pre_check() -> bool:\n\tcommon_modules = []\n\tcontent_analyser_content = inspect.getsource(content_analyser).encode()\n\tcontent_analyser_hash = hash_helper.create_hash(content_analyser_content)\n\n\treturn all(module.pre_check() for module in common_modules) and content_analyser_hash == 'b159fd9d'\n".

(** The original definition of [analyse_frame]. *)
Definition analyse_frame_original : text :=
  py "def analyse_frame(vision_frame : VisionFrame) -> bool:\n\treturn detect_nsfw(vision_frame)".

(** The original definition of [analyse_image]. *)
Definition analyse_image_original : text :=
  py "@lru_cache()\ndef analyse_image(image_path : str) -> bool:\n\tvision_frame = read_image(image_path)\n\treturn analyse_frame(vision_frame)".

(** The comparison of the exit-code scenario. *)
Definition deadbeef_comparison : text :=
  raw "content_analyser_hash == 'deadbeef'".

(** A text with the landmark of the seventh rule alone. *)
Definition detect_nsfw_only : text :=
  py "def detect_nsfw(vision_frame : VisionFrame) -> bool:\n\tis_nsfw_1 = True\n\treturn is_nsfw_1 and is_nsfw_2 or is_nsfw_1 and is_nsfw_3 or is_nsfw_2 and is_nsfw_3\n".

(** A text with the landmark of the fourth rule alone. *)
Definition analyse_stream_only : text :=
  py "def analyse_stream(vision_frame : VisionFrame, video_fps : Fps) -> bool:\n\tglobal STREAM_COUNTER\n\treturn False\n".




(** [analyse_frame] in its original form inside the body of
    [detect_nsfw]. *)
Definition analyse_frame_inside_detect_nsfw : text :=
  py "def detect_nsfw(vision_frame : VisionFrame) -> bool:\n\tdef analyse_frame(vision_frame : VisionFrame) -> bool:\n\treturn detect_nsfw(vision_frame)\n\treturn is_nsfw_1 and is_nsfw_2 or is_nsfw_1 and is_nsfw_3 or is_nsfw_2 and is_nsfw_3\n".

End Samples.

(** ** Files, console and exceptions *)

Module Fs.

(** A [pathlib.Path], as the list of its components. *)
Definition path := list string.

Definition Path (s : string) : path := [s].

(** [p / name]. *)
Definition join (p : path) (name : string) : path := p ++ [name].

(** [p.name]. *)
Definition name (p : path) : string := last p EmptyString.

Definition path_eq_dec : forall a b : path, {a = b} + {a <> b} :=
  list_eq_dec string_dec.

Inductive entry :=
| File (content : text)
| Dir.

Definition files := path -> option entry.

(** The operations that reach the file system, in the order they happen. *)
Inductive op :=
| OpExists (p : path)
| OpRead (p : path)
| OpWrite (p : path) (content : text).

(** The lines the script prints, one constructor per [print] call. *)
Inductive message :=
| MsgNoChanges (file : string)
| MsgStructureChanged
| MsgPatched (file : string)
| MsgCheckPassed (label : string)
| MsgCheckFailed (label : string)
| MsgUsage (prog : string)
| MsgSourceDirNotFound (p : path)
| MsgTargetNotFound (file : string) (p : path)
| MsgPatching (p : path)
| MsgApplying
| MsgVerifying
| MsgAllApplied
| MsgSomeFailed.

Record world := World {
  disk : files;
  ops : list op;
  console : list message
}.

Inductive exn :=
| FileNotFoundError (p : path)
| IsADirectoryError (p : path)
| IndexError
| SystemExit (code : nat).

Inductive result (A : Type) :=
| Ok (a : A)
| Raise (e : exn).

Arguments Ok {A} a.
Arguments Raise {A} e.

(** Computations of the script: they change the world and either return
    or raise. *)
Definition M (A : Type) := world -> result A * world.

Definition ret {A} (a : A) : M A := fun w => (Ok a, w).

Definition bind {A B} (m : M A) (f : A -> M B) : M B :=
  fun w =>
    match m w with
    | (Ok a, w') => f a w'
    | (Raise e, w') => (Raise e, w')
    end.

Definition raise {A} (e : exn) : M A := fun w => (Raise e, w).

Notation "x <- m ;; k" := (bind m (fun x => k))
  (at level 61, m at next level, right associativity).
Notation "m ;;; k" := (bind m (fun _ => k))
  (at level 61, right associativity).

Definition log (o : op) : M unit :=
  fun w => (Ok tt, World (disk w) (ops w ++ [o]) (console w)).

Definition print (m : message) : M unit :=
  fun w => (Ok tt, World (disk w) (ops w) (console w ++ [m])).

(** [p.exists()]. *)
Definition exists_ (p : path) : M bool :=
  log (OpExists p) ;;;
  fun w => (Ok (match disk w p with Some _ => true | None => false end), w).

(** [p.read_text()]. *)
Definition read_text (p : path) : M text :=
  log (OpRead p) ;;;
  fun w =>
    match disk w p with
    | Some (File content) => (Ok content, w)
    | Some Dir => (Raise (IsADirectoryError p), w)
    | None => (Raise (FileNotFoundError p), w)
    end.

Definition update (d : files) (p : path) (content : text) : files :=
  fun q => if path_eq_dec q p then Some (File content) else d q.

(** [p.write_text(content)]. *)
Definition write_text (p : path) (content : text) : M unit :=
  log (OpWrite p content) ;;;
  fun w =>
    match disk w p with
    | Some Dir => (Raise (IsADirectoryError p), w)
    | _ => (Ok tt, World (update (disk w) p content) (ops w) (console w))
    end.

(** How the process ends: [sys.exit(n)] gives [n], any other uncaught
    exception gives 1, falling off the end of [main] gives 0. *)
Definition exit_status {A} (r : result A) : nat :=
  match r with
  | Ok _ => 0
  | Raise (SystemExit n) => n
  | Raise _ => 1
  end.

Definition is_write (o : op) : bool :=
  match o with OpWrite _ _ => true | _ => false end.

(** A computation is confined to the paths in [P] when it leaves the
    disk outside [P] as it was, adds to the log of operations without
    a write outside [P], and ends the process, if it does, with
    [sys.exit(1)]. *)
Definition confined (P : path -> Prop) {A : Type} (m : M A) : Prop :=
  forall w,
    (forall q, ~ P q -> disk (snd (m w)) q = disk w q) /\
    (exists os,
        ops (snd (m w)) = ops w ++ os /\
        forall p c, In (OpWrite p c) os -> P p) /\
    (forall n, fst (m w) = Raise (SystemExit n) -> n = 1).

End Fs.

(** ** The script *)

Module Script.

Import Rules Fs.

Definition patch_content_analyser (file_path : path) : M unit :=
  content <- read_text file_path ;;
  let original := content in
  let content := patch_content_analyser_text content in
  if text_eqb content original then
    print (MsgNoChanges (name file_path)) ;;;
    print MsgStructureChanged
  else
    write_text file_path content ;;;
    print (MsgPatched (name file_path)).

Definition patch_core (file_path : path) : M unit :=
  content <- read_text file_path ;;
  let original := content in
  let content := patch_core_text content in
  if text_eqb content original then
    print (MsgNoChanges (name file_path)) ;;;
    print MsgStructureChanged
  else
    write_text file_path content ;;;
    print (MsgPatched (name file_path)).

(** The markers [verify_patches] looks for. *)
Definition marker_models_removed : text := raw "# PATCHED: NSFW models removed".
Definition marker_pre_check : text := raw "# PATCHED: Skip NSFW model downloads".
Definition marker_check_disabled : text := raw "# PATCHED: NSFW check disabled".
Definition marker_patched : text := raw "# PATCHED".

(** The marker of the seventh rule, which [verify_patches] does not look
    for. *)
Definition marker_detection_disabled : text :=
  raw "# PATCHED: NSFW detection disabled".

Definition checks (content : text) : list (string * bool) :=
  [ ("NSFW models removed"%string, contains marker_models_removed content);
    ("pre_check disabled"%string, contains marker_pre_check content);
    ("analyse_frame disabled"%string, contains marker_check_disabled content) ].

(** The [for name, passed in checks] loop, with [success] threaded. *)
Fixpoint report_checks (cs : list (string * bool)) (success : bool) : M bool :=
  match cs with
  | [] => ret success
  | (label, passed) :: cs' =>
      if passed then
        print (MsgCheckPassed label) ;;;
        report_checks cs' success
      else
        print (MsgCheckFailed label) ;;;
        report_checks cs' false
  end.

Definition content_analyser_path (source_dir : path) : path :=
  join (join source_dir "facefusion") "content_analyser.py".

Definition core_path (source_dir : path) : path :=
  join (join source_dir "facefusion") "core.py".

Definition hash_label : string := "Hash check bypassed".
Definition hash_failed_label : string := "Hash check bypass".

Definition verify_patches (source_dir : path) : M bool :=
  let content_analyser := content_analyser_path source_dir in
  let core := core_path source_dir in
  let success := true in
  present <- exists_ content_analyser ;;
  success <- (if present then
                content <- read_text content_analyser ;;
                report_checks (checks content) success
              else ret success) ;;
  present <- exists_ core ;;
  success <- (if present then
                content <- read_text core ;;
                if contains marker_patched content then
                  print (MsgCheckPassed hash_label) ;;;
                  ret success
                else
                  print (MsgCheckFailed hash_failed_label) ;;;
                  ret false
              else ret success) ;;
  ret success.

(** [main], with [sys.argv] as its argument. *)
Definition main (argv : list string) : M unit :=
  (if Nat.eqb (List.length argv) 2 then ret tt
   else
     match argv with
     | [] => raise IndexError
     | prog :: _ => print (MsgUsage prog) ;;; raise (SystemExit 1)
     end) ;;;
  let source_dir := Path (nth 1 argv EmptyString) in
  present <- exists_ source_dir ;;
  (if present then ret tt
   else print (MsgSourceDirNotFound source_dir) ;;; raise (SystemExit 1)) ;;;
  print (MsgPatching source_dir) ;;;
  let content_analyser := content_analyser_path source_dir in
  let core := core_path source_dir in
  present <- exists_ content_analyser ;;
  (if present then ret tt
   else print (MsgTargetNotFound "content_analyser.py" content_analyser) ;;;
        raise (SystemExit 1)) ;;;
  present <- exists_ core ;;
  (if present then ret tt
   else print (MsgTargetNotFound "core.py" core) ;;; raise (SystemExit 1)) ;;;
  print MsgApplying ;;;
  patch_content_analyser content_analyser ;;;
  patch_core core ;;;
  print MsgVerifying ;;;
  ok <- verify_patches source_dir ;;
  if ok then print MsgAllApplied
  else print MsgSomeFailed ;;; raise (SystemExit 1).

(** *** What a run leaves behind *)

(** Every marker is in the file at [p], when there is one. *)
Definition all_found (d : files) (p : path) (markers : list text) : bool :=
  match d p with
  | None => true
  | Some (File content) => forallb (fun m => contains m content) markers
  | Some Dir => false
  end.

(** The line [verify_patches] prints for one check of the moderation
    file. *)
Definition check_line (label : string) (passed : bool) : message :=
  if passed then MsgCheckPassed label else MsgCheckFailed label.

Definition is_exists (o : op) : bool :=
  match o with OpExists _ => true | _ => false end.


(** The operations and the lines a run added. *)
Definition new_ops (w w' : world) : list op :=
  skipn (List.length (ops w)) (ops w').

Definition new_console (w w' : world) : list message :=
  skipn (List.length (console w)) (console w').

(** A run wrote when it attempted a write, whatever the path. *)
Definition wrote (w w' : world) : bool := existsb is_write (new_ops w w').

(** The lines of the [for name, passed in checks] loop. *)
Definition check_messages (cs : list (string * bool)) : list message :=
  map (fun c : string * bool => if snd c then MsgCheckPassed (fst c)
                else MsgCheckFailed (fst c)) cs.

(** What [verify_patches] does with one target, by what is on disk. *)
Definition hash_message (content : text) : message :=
  if contains marker_patched content then MsgCheckPassed hash_label
  else MsgCheckFailed hash_failed_label.

Definition verified (d : files) (source_dir : path) : result bool :=
  match d (content_analyser_path source_dir) with
  | Some Dir => Raise (IsADirectoryError (content_analyser_path source_dir))
  | ca =>
      let ok1 := match ca with
                 | Some (File c) => forallb snd (checks c)
                 | _ => true
                 end in
      match d (core_path source_dir) with
      | Some Dir => Raise (IsADirectoryError (core_path source_dir))
      | Some (File c) => Ok (ok1 && contains marker_patched c)
      | None => Ok ok1
      end
  end.

Definition verify_console (d : files) (source_dir : path) : list message :=
  match d (content_analyser_path source_dir) with
  | Some Dir => []
  | ca =>
      match ca with
      | Some (File c) => check_messages (checks c)
      | _ => []
      end ++
      match d (core_path source_dir) with
      | Some (File c) => [hash_message c]
      | _ => []
      end
  end.

(** The two paths the script works on. *)
Definition targets (source_dir : path) (q : path) : Prop :=
  q = content_analyser_path source_dir \/ q = core_path source_dir.

(** What one patch function leaves behind, for a transformer [f]. *)
Definition patched_world (f : text -> text) (p : path) (original : text)
  (w : world) : world :=
  if text_eqb (f original) original
  then World (disk w) (ops w ++ [OpRead p])
             (console w ++ [MsgNoChanges (name p); MsgStructureChanged])
  else World (update (disk w) p (f original))
             (ops w ++ [OpRead p; OpWrite p (f original)])
             (console w ++ [MsgPatched (name p)]).

(** The world [main] has made when its three existence checks passed. *)
Definition checked_world (dir : string) (w : world) : world :=
  World (disk w)
        (ops w ++ [OpExists (Path dir);
                   OpExists (content_analyser_path (Path dir));
                   OpExists (core_path (Path dir))])
        (console w ++ [MsgPatching (Path dir); MsgApplying]).

(** The world in which [main] calls [verify_patches], for the texts the
    two target files held. *)
Definition patched_both (dir : string) (ca core : text) (w : world)
  : world :=
  let w1 := patched_world patch_content_analyser_text
              (content_analyser_path (Path dir)) ca (checked_world dir w) in
  let w2 := patched_world patch_core_text (core_path (Path dir)) core w1 in
  World (disk w2) (ops w2) (console w2 ++ [MsgVerifying]).

(** The end of [main], from what [verify_patches] returned. *)
Definition verdict (r : result bool * world) : result unit * world :=
  match r with
  | (Ok true, w) =>
      (Ok tt, World (disk w) (ops w) (console w ++ [MsgAllApplied]))
  | (Ok false, w) =>
      (Raise (SystemExit 1),
       World (disk w) (ops w) (console w ++ [MsgSomeFailed]))
  | (Raise e, w) => (Raise e, w)
  end.

(** The operations of one patch function on a regular file. *)
Definition patch_ops (f : text -> text) (p : path) (original : text)
  : list op :=
  OpRead p ::
  (if text_eqb (f original) original then []
   else [OpWrite p (f original)]).

End Script.

(** ** Sample checkouts *)

Module Worlds.

Import Fs Script.

Definition source_dir : path := Path "checkout".

(** A checkout with the given entries at the two target paths. *)
Definition checkout (ca core : option entry) : files :=
  fun q =>
    if path_eq_dec q source_dir then Some Dir
    else if path_eq_dec q (join source_dir "facefusion") then Some Dir
    else if path_eq_dec q (content_analyser_path source_dir) then ca
    else if path_eq_dec q (core_path source_dir) then core
    else None.

(** The world before the script ran. *)
Definition fresh (d : files) : world := World d [] [].

Definition upstream : world :=
  fresh (checkout (Some (File Samples.content_analyser_py))
                  (Some (File Samples.core_py))).

End Worlds.

(** ** Facts about text *)

Section TextFacts.

Lemma skipn_length_app {A} (l r : list A) : skipn (List.length l) (l ++ r) = r.
Proof. induction l; simpl; auto. Qed.

Lemma text_eqb_true (a b : text) : text_eqb a b = true <-> a = b.
Proof.
  unfold text_eqb. destruct (text_eq_dec a b); split; congruence.
Qed.

Lemma text_eqb_false (a b : text) : text_eqb a b = false <-> a <> b.
Proof.
  unfold text_eqb. destruct (text_eq_dec a b); split; congruence.
Qed.

Lemma text_eqb_refl (a : text) : text_eqb a a = true.
Proof. now apply text_eqb_true. Qed.

Lemma starts_with_app (n r : text) : starts_with n (n ++ r) = true.
Proof.
  induction n as [|a n IH]; simpl; [reflexivity|].
  now rewrite Ascii.eqb_refl, IH.
Qed.

Lemma starts_with_inv (n h : text) :
  starts_with n h = true -> exists r, h = n ++ r.
Proof.
  revert h. induction n as [|a n IH]; intros h H.
  - now exists h.
  - destruct h as [|b h]; simpl in H; [discriminate|].
    apply andb_true_iff in H. destruct H as [Hab Hn].
    apply Ascii.eqb_eq in Hab. subst b.
    destruct (IH _ Hn) as [r ->]. now exists r.
Qed.

Lemma starts_with_contains (n h : text) :
  starts_with n h = true -> contains n h = true.
Proof. intros H. destruct h; simpl; now rewrite H. Qed.

Lemma contains_intro (n a b : text) : contains n (a ++ n ++ b) = true.
Proof.
  induction a as [|c a IH]; simpl.
  - apply starts_with_contains, starts_with_app.
  - rewrite IH. apply orb_true_r.
Qed.

Lemma contains_inv (n h : text) :
  contains n h = true -> exists a b, h = a ++ n ++ b.
Proof.
  induction h as [|c h IH]; simpl; intros H.
  - rewrite orb_false_r in H. apply starts_with_inv in H.
    destruct H as [r ->]. now exists [], r.
  - apply orb_true_iff in H. destruct H as [H|H].
    + apply starts_with_inv in H. destruct H as [r ->]. now exists [], r.
    + destruct (IH H) as (a & b & ->). now exists (c :: a), b.
Qed.

Lemma contains_spec (n h : text) :
  contains n h = true <-> exists a b, h = a ++ n ++ b.
Proof.
  split; [apply contains_inv|].
  intros (a & b & ->). apply contains_intro.
Qed.

(** A part of a part is a part. *)
Lemma contains_trans (m n h : text) :
  contains m n = true -> contains n h = true -> contains m h = true.
Proof.
  intros Hm Hn.
  apply contains_inv in Hm. destruct Hm as (a & b & ->).
  apply contains_inv in Hn. destruct Hn as (a' & b' & ->).
  apply contains_spec. exists (a' ++ a), (b ++ b').
  now rewrite <- !app_assoc.
Qed.


Lemma contains_app_r (n a b : text) :
  contains n b = true -> contains n (a ++ b) = true.
Proof.
  intros H. apply contains_inv in H. destruct H as (x & y & ->).
  apply contains_spec. exists (a ++ x), y. now rewrite <- !app_assoc.
Qed.

End TextFacts.

(** ** Facts about [re.sub] *)

Module ReFacts.

Import Re.

Section Sub.

Variable fl : flags.
Variable p : regex.
Variable repl : text.

Local Abbreviation sub_from := (Re.sub_from fl p repl).
Local Abbreviation search_from := (Re.search_from fl p).
Local Abbreviation match_here := (Re.match_here fl p).
Local Abbreviation settled_from := (Re.settled_from fl p repl).

(** One step of the scan. *)
Lemma sub_from_skip (k : nat) (prev : option ascii) (c : ascii) (s : text) :
  sub_from (S k) prev (c :: s) = sub_from k (Some c) s.
Proof. reflexivity. Qed.

Lemma sub_from_miss (prev : option ascii) (c : ascii) (s : text) :
  match_here prev (c :: s) = None ->
  sub_from 0 prev (c :: s) = c :: sub_from 0 (Some c) s.
Proof. intros H. simpl. now rewrite H. Qed.

Lemma sub_from_hit (prev : option ascii) (c : ascii) (s : text) (k : nat) :
  match_here prev (c :: s) = Some (S k) ->
  sub_from 0 prev (c :: s) = repl ++ sub_from k (Some c) s.
Proof. intros H. simpl. now rewrite H. Qed.

(** The output is the remaining input, or holds the replacement. *)
Lemma sub_from_same_or_repl (s : text) :
  forall skip prev,
    sub_from skip prev s = skipn skip s \/
    exists a b, sub_from skip prev s = a ++ repl ++ b.
Proof.
  induction s as [|c s IH]; intros skip prev.
  - destruct skip as [|k]; simpl; [|now left].
    destruct (match_here prev []) as [[|k]|]; [right|right|now left];
      now exists [], [].
  - destruct skip as [|k].
    + simpl. destruct (match_here prev (c :: s)) as [[|k]|].
      * right. now exists [], (c :: sub_from 0 (Some c) s).
      * right. now exists [], (sub_from k (Some c) s).
      * destruct (IH 0 (Some c)) as [E|(a & b & E)].
        -- left. simpl in E. now rewrite E.
        -- right. exists (c :: a), b. now rewrite E.
    + rewrite sub_from_skip. simpl skipn. apply IH.
Qed.

(** Where the pattern is found, the output holds the replacement. *)
Lemma search_sub_from_repl (s : text) :
  forall prev,
    search_from prev s = true ->
    exists a b, sub_from 0 prev s = a ++ repl ++ b.
Proof.
  induction s as [|c s IH]; intros prev H; simpl in H |- *.
  - destruct (match_here prev []) as [[|k]|]; [| |discriminate];
      now exists [], [].
  - destruct (match_here prev (c :: s)) as [[|k]|].
    + now exists [], (c :: sub_from 0 (Some c) s).
    + now exists [], (sub_from k (Some c) s).
    + destruct (IH _ H) as (a & b & E).
      exists (c :: a), b. now rewrite E.
Qed.

(** Where the pattern is found nowhere, the text is copied. *)
Lemma no_search_sub_from (s : text) :
  forall prev, search_from prev s = false -> sub_from 0 prev s = s.
Proof.
  induction s as [|c s IH]; intros prev H; simpl in H |- *.
  - now destruct (match_here prev []).
  - destruct (match_here prev (c :: s)); [discriminate|].
    now rewrite IH.
Qed.

Lemma settled_sub_from (s : text) :
  forall skip prev,
    settled_from skip prev s = true -> sub_from skip prev s = skipn skip s.
Proof.
  induction s as [|c s IH]; intros skip prev H.
  - destruct skip as [|k]; simpl in *; [|reflexivity].
    destruct (match_here prev []) as [[|k]|]; [| |reflexivity];
      apply andb_true_iff in H; destruct H as [H _];
      apply text_eqb_true in H.
    + now subst repl.
    + simpl in H. now subst repl.
  - destruct skip as [|k]; simpl in H |- *; [|now apply IH].
    destruct (match_here prev (c :: s)) as [[|k]|].
    + apply andb_true_iff in H. destruct H as [Hr Hs].
      apply text_eqb_true in Hr. rewrite (IH _ _ Hs).
      now rewrite Hr.
    + apply andb_true_iff in H. destruct H as [Hr Hs].
      apply text_eqb_true in Hr. rewrite (IH _ _ Hs).
      rewrite <- Hr. simpl. f_equal. apply firstn_skipn.
    + now rewrite (IH _ _ H).
Qed.

Lemma no_search_settled_from (s : text) :
  forall prev, search_from prev s = false -> settled_from 0 prev s = true.
Proof.
  induction s as [|c s IH]; intros prev H; simpl in H |- *.
  - now destruct (match_here prev []).
  - destruct (match_here prev (c :: s)); [discriminate|].
    now apply IH.
Qed.


End Sub.


Lemma sub_same_or_repl fl p repl content :
  Re.sub fl p repl content = content \/
  exists a b, Re.sub fl p repl content = a ++ repl ++ b.
Proof. apply (sub_from_same_or_repl fl p repl content 0 None). Qed.

Lemma search_sub_repl fl p repl content :
  Re.search fl p content = true ->
  exists a b, Re.sub fl p repl content = a ++ repl ++ b.
Proof. apply search_sub_from_repl. Qed.

Lemma no_search_sub fl p repl content :
  Re.search fl p content = false -> Re.sub fl p repl content = content.
Proof. apply no_search_sub_from. Qed.

Lemma settled_sub fl p repl content :
  settled fl p repl content = true -> Re.sub fl p repl content = content.
Proof. intros H. apply (settled_sub_from _ _ _ _ _ _ H). Qed.

Lemma no_search_settled fl p repl content :
  Re.search fl p content = false -> settled fl p repl content = true.
Proof. apply no_search_settled_from. Qed.


End ReFacts.

(** ** Facts about patterns of fixed length *)

Module FixedFacts.

Import Re ReFacts Fixed.

Section Accepts.

Variable fl : flags.

Local Abbreviation accepts := (Fixed.accepts fl).
Local Abbreviation occurs := (Fixed.occurs fl).
Local Abbreviation clash := (Fixed.clash fl).
Local Abbreviation stable := (Fixed.stable fl).

Lemma clash_accepts (cs : list cset) :
  forall u x, clash cs u = true -> accepts cs (u ++ x) = false.
Proof.
  induction cs as [|c0 cs IH]; intros [|c u] x H; simpl in *;
    try discriminate.
  apply orb_true_iff in H. destruct H as [H|H].
  - apply negb_true_iff in H. now rewrite H.
  - rewrite (IH _ _ H). apply andb_false_r.
Qed.

Lemma accepts_app (cs : list cset) :
  forall u x, accepts cs u = true -> accepts cs (u ++ x) = true.
Proof.
  induction cs as [|c0 cs IH]; intros [|c u] x H; simpl in *;
    try reflexivity; try discriminate.
  apply andb_true_iff in H. destruct H as [H1 H2].
  now rewrite H1, (IH _ _ H2).
Qed.

Lemma accepts_app_cs (cs1 cs2 : list cset) :
  forall s, accepts (cs1 ++ cs2) s = true ->
            accepts cs2 (skipn (List.length cs1) s) = true.
Proof.
  induction cs1 as [|c0 cs1 IH]; intros s H; simpl in *; [assumption|].
  destruct s as [|c s]; [discriminate|].
  apply andb_true_iff in H. now apply IH.
Qed.

Lemma occurs_tail (cs : list cset) (c : ascii) (s : text) :
  occurs cs s = true -> occurs cs (c :: s) = true.
Proof. intros H. simpl. rewrite H. apply orb_true_r. Qed.

Lemma occurs_skipn (cs : list cset) :
  forall n s, occurs cs (skipn n s) = true -> occurs cs s = true.
Proof.
  induction n as [|n IH]; intros s H; [assumption|].
  destruct s as [|c s]; [assumption|].
  apply occurs_tail, IH, H.
Qed.

Lemma accepts_occurs (cs : list cset) (s : text) :
  accepts cs s = true -> occurs cs s = true.
Proof. intros H. destruct s; simpl; now rewrite H. Qed.

(** A longer pattern that ends in [cs2] occurs only where [cs2] does. *)
Lemma occurs_app_cs (cs1 cs2 : list cset) :
  forall s, occurs (cs1 ++ cs2) s = true -> occurs cs2 s = true.
Proof.
  induction s as [|c s IH]; intros H.
  - simpl in H. rewrite orb_false_r in H.
    apply accepts_app_cs in H. rewrite skipn_nil in H.
    now apply accepts_occurs.
  - simpl in H. apply orb_true_iff in H. destruct H as [H|H].
    + apply accepts_app_cs in H.
      apply occurs_skipn with (n := List.length cs1).
      now apply accepts_occurs.
    + apply occurs_tail, IH, H.
Qed.

(** A text the pattern accepts occurs wherever it is found. *)
Lemma contains_occurs (cs : list cset) (lit : text) :
  accepts cs lit = true ->
  forall s, contains lit s = true -> occurs cs s = true.
Proof.
  intros Hl s H. apply contains_inv in H. destruct H as (a & b & ->).
  induction a as [|c a IH].
  - simpl. apply accepts_occurs, accepts_app, Hl.
  - apply occurs_tail, IH.
Qed.

(** The matcher on a fixed pattern. *)
Lemma take_n_accepts (x : cset) (k : cont) (cs : list cset) :
  (forall prev s,
      k prev s = if accepts cs s then Some (List.length cs) else None) ->
  forall n prev s,
    take_n fl x k n prev s =
    if accepts (repeat x n ++ cs) s
    then Some (List.length (repeat x n ++ cs)) else None.
Proof.
  intros Hk. induction n as [|n IH]; intros prev s; simpl; [apply Hk|].
  unfold take_one. destruct s as [|c s]; [reflexivity|].
  destruct (cset_mem fl x c); [|reflexivity]. simpl.
  rewrite IH. now destruct (accepts (repeat x n ++ cs) s).
Qed.

Lemma match_here_fixed (p : regex) :
  forall cs, fixed_of p = Some cs ->
  forall prev s,
    match_here fl p prev s =
    if accepts cs s then Some (List.length cs) else None.
Proof.
  induction p as [|nd p IH]; intros cs H prev s.
  - injection H as <-. reflexivity.
  - destruct nd as [x q| |]; try discriminate.
    destruct q as [|n| | |]; try discriminate; simpl in H;
      destruct (fixed_of p) as [cs'|] eqn:E; try discriminate;
      injection H as <-.
    + simpl. unfold take_one. destruct s as [|c s]; [reflexivity|].
      destruct (cset_mem fl x c); [|reflexivity]. simpl.
      rewrite (IH _ eq_refl). now destruct (accepts cs' s).
    + simpl match_here. apply take_n_accepts. intros. now apply IH.
Qed.

Lemma search_from_fixed (p : regex) (cs : list cset) :
  fixed_of p = Some cs ->
  forall s prev, search_from fl p prev s = occurs cs s.
Proof.
  intros H. induction s as [|c s IH]; intros prev; simpl;
    rewrite (match_here_fixed _ H).
  - now destruct (accepts cs []).
  - destruct (accepts cs (c :: s)); [reflexivity|]. apply IH.
Qed.

(** *** After the substitution the pattern occurs nowhere *)

Section Stable.

Variable p : regex.
Variable cs : list cset.
Variable repl : text.
Hypothesis Hfixed : fixed_of p = Some cs.
Hypothesis Hstable : stable cs repl = true.

Lemma stable_nonempty : accepts cs [] = false.
Proof.
  unfold stable in Hstable. destruct cs; [discriminate|reflexivity].
Qed.

Lemma stable_inside : forallb (clash cs) (tails repl) = true.
Proof.
  unfold stable in Hstable.
  apply andb_true_iff in Hstable. destruct Hstable as [H _].
  apply andb_true_iff in H. apply H.
Qed.

Lemma stable_into : forallb (fun cs' => clash cs' repl) (tails cs) = true.
Proof.
  unfold stable in Hstable.
  apply andb_true_iff in Hstable. apply Hstable.
Qed.

Lemma sub_from_fixed_hit (prev : option ascii) (c : ascii) (s : text) :
  accepts cs (c :: s) = true ->
  exists k, sub_from fl p repl 0 prev (c :: s) =
            repl ++ sub_from fl p repl k (Some c) s.
Proof.
  intros E. pose proof stable_nonempty as N.
  destruct cs as [|x cs'] eqn:Ecs; [discriminate|].
  exists (List.length cs'). apply sub_from_hit.
  rewrite (match_here_fixed _ Hfixed), E. reflexivity.
Qed.

Lemma sub_from_fixed_miss (prev : option ascii) (c : ascii) (s : text) :
  accepts cs (c :: s) = false ->
  sub_from fl p repl 0 prev (c :: s) = c :: sub_from fl p repl 0 (Some c) s.
Proof.
  intros E. apply sub_from_miss.
  now rewrite (match_here_fixed _ Hfixed), E.
Qed.

Lemma sub_from_fixed_nil (skip : nat) (prev : option ascii) :
  sub_from fl p repl skip prev [] = [].
Proof.
  destruct skip; simpl; [|reflexivity].
  now rewrite (match_here_fixed _ Hfixed), stable_nonempty.
Qed.

(** What the output starts with, the input started with. *)
Lemma accepts_sub_from (cs' : list cset) :
  forallb (fun c' => clash c' repl) (tails cs') = true ->
  forall s prev,
    accepts cs' (sub_from fl p repl 0 prev s) = true ->
    accepts cs' s = true.
Proof.
  intros Hc s. revert cs' Hc.
  induction s as [|c s IH]; intros cs' Hc prev H.
  - now rewrite sub_from_fixed_nil in H.
  - destruct cs' as [|x cs'']; [reflexivity|].
    cbn [tails forallb] in Hc.
    apply andb_true_iff in Hc. destruct Hc as [Hx Hc].
    destruct (accepts cs (c :: s)) eqn:E.
    + destruct (sub_from_fixed_hit prev _ _ E) as [k Ek].
      rewrite Ek, (clash_accepts _ _ _ Hx) in H. discriminate.
    + rewrite (sub_from_fixed_miss prev _ _ E) in H.
      cbn [accepts] in H |- *.
      apply andb_true_iff in H. destruct H as [H1 H2].
      rewrite H1. simpl. now apply IH with (prev := Some c).
Qed.

Lemma occurs_repl_app (u x : text) :
  forallb (clash cs) (tails u) = true ->
  occurs cs x = false -> occurs cs (u ++ x) = false.
Proof.
  induction u as [|c u IH]; intros Hu Hx; [assumption|].
  cbn [tails forallb] in Hu.
  apply andb_true_iff in Hu. destruct Hu as [Hc Hu].
  change ((c :: u) ++ x) with (c :: (u ++ x)).
  cbn [occurs]. rewrite (IH Hu Hx), orb_false_r.
  change (c :: (u ++ x)) with ((c :: u) ++ x).
  apply clash_accepts, Hc.
Qed.

Lemma sub_from_no_occurrence (s : text) :
  forall skip prev, occurs cs (sub_from fl p repl skip prev s) = false.
Proof.
  induction s as [|c s IH]; intros skip prev.
  - rewrite sub_from_fixed_nil. simpl. rewrite orb_false_r.
    apply stable_nonempty.
  - destruct skip as [|k]; [|apply IH].
    destruct (accepts cs (c :: s)) eqn:E.
    + destruct (sub_from_fixed_hit prev _ _ E) as [k Ek]. rewrite Ek.
      apply occurs_repl_app; [apply stable_inside|apply IH].
    + destruct (accepts cs (sub_from fl p repl 0 prev (c :: s))) eqn:A.
      * rewrite (accepts_sub_from cs stable_into _ _ A) in E. discriminate.
      * rewrite (sub_from_fixed_miss prev _ _ E) in A |- *.
        cbn [occurs]. now rewrite A, IH.
Qed.

(** No match is left, and none is created. *)
Lemma sub_no_occurrence (content : text) :
  occurs cs (Re.sub fl p repl content) = false.
Proof. apply sub_from_no_occurrence. Qed.


(** Where the pattern occurs, the substitution changes the text. *)
Lemma sub_changes (content : text) :
  occurs cs content = true -> Re.sub fl p repl content <> content.
Proof.
  intros H E. pose proof (sub_no_occurrence content) as N.
  rewrite E in N. congruence.
Qed.

End Stable.

(** *** A match in the middle of a text *)

Lemma disjoint_mem (x y : cset) (c : ascii) :
  Fixed.disjoint fl x y = true ->
  cset_mem fl x c = true -> cset_mem fl y c = false.
Proof.
  destruct x as [a| |rs], y as [b| |rs']; simpl; intros D M;
    try discriminate.
  - apply Ascii.eqb_eq in M. subst c. now apply negb_true_iff in D.
  - apply Ascii.eqb_eq in M. subst c. now apply negb_true_iff in D.
  - apply Ascii.eqb_eq in M. subst c. now apply negb_true_iff in D.
  - apply negb_true_iff in D.
    destruct (Ascii.eqb c b) eqn:E; [|reflexivity].
    apply Ascii.eqb_eq in E. subst c. congruence.
  - apply negb_true_iff in D.
    destruct (Ascii.eqb c b) eqn:E; [|reflexivity].
    apply Ascii.eqb_eq in E. subst c. simpl in M. congruence.
Qed.

Lemma apart_accepts (cs1 : list cset) :
  forall cs2 s,
    Fixed.apart fl cs1 cs2 = true ->
    accepts cs1 s = true -> accepts cs2 s = false.
Proof.
  induction cs1 as [|x cs1 IH]; intros [|y cs2] s D A; try discriminate.
  destruct s as [|c s]; [reflexivity|].
  cbn [Fixed.apart] in D. cbn [Fixed.accepts] in A |- *.
  apply andb_true_iff in A. destruct A as [A1 A2].
  apply orb_true_iff in D. destruct D as [D|D].
  - now rewrite (disjoint_mem _ _ _ D A1).
  - rewrite (IH _ _ D A2). apply andb_false_r.
Qed.

Lemma accepts_skipn (cs : list cset) :
  forall k s,
    accepts cs s = true -> accepts (skipn k cs) (skipn k s) = true.
Proof.
  induction cs as [|x cs IH]; intros k s A.
  - now rewrite skipn_nil.
  - destruct k as [|k]; [assumption|].
    destruct s as [|c s]; [discriminate|].
    cbn [Fixed.accepts] in A. apply andb_true_iff in A.
    cbn [skipn]. now apply IH.
Qed.

Lemma accepts_long (cs : list cset) :
  forall u x,
    List.length cs <= List.length u ->
    accepts cs (u ++ x) = accepts cs u.
Proof.
  induction cs as [|c0 cs IH]; intros u x L; [reflexivity|].
  destruct u as [|c u]; [simpl in L; lia|].
  cbn [Fixed.accepts app]. simpl in L.
  now rewrite IH by lia.
Qed.

Lemma accepts_length (cs : list cset) :
  forall s, accepts cs s = true -> List.length cs <= List.length s.
Proof.
  induction cs as [|c0 cs IH]; intros s A; [simpl; lia|].
  destruct s as [|c s]; [discriminate|].
  cbn [Fixed.accepts] in A. apply andb_true_iff in A.
  simpl. apply le_n_S, IH, A.
Qed.

Lemma tails_skipn {A} (l : list A) :
  forall k, k < List.length l -> In (skipn k l) (tails l).
Proof.
  induction l as [|x l IH]; intros k L; [simpl in L; lia|].
  destruct k as [|k]; [now left|].
  right. apply IH. simpl in L. lia.
Qed.

Section Compose.

Variable p : regex.
Variable cs : list cset.
Variable repl : text.
Hypothesis Hfixed : fixed_of p = Some cs.
Hypothesis Hfree : Fixed.self_free fl cs = true.

Lemma free_nonempty : accepts cs [] = false.
Proof. destruct cs; [discriminate|reflexivity]. Qed.

Lemma cs_length : List.length cs = S (pred (List.length cs)).
Proof. destruct cs; [discriminate|reflexivity]. Qed.

(** Two matches less than the pattern's length apart are one match. *)
Lemma no_overlap (s : text) (k : nat) :
  0 < k -> k < List.length cs ->
  accepts cs s = true -> accepts cs (skipn k s) = false.
Proof.
  intros K0 K A.
  apply apart_accepts with (cs1 := skipn k cs); [|now apply accepts_skipn].
  unfold Fixed.self_free in Hfree.
  destruct cs as [|x cs'] eqn:E; [discriminate|].
  destruct k as [|k]; [lia|]. cbn [skipn].
  apply (proj1 (forallb_forall _ _) Hfree).
  apply tails_skipn. simpl in K. lia.
Qed.

Lemma sub_from_prev (s : text) :
  forall skip prev prev',
    sub_from fl p repl skip prev s = sub_from fl p repl skip prev' s.
Proof.
  induction s as [|c s IH]; intros skip prev prev'.
  - destruct skip; simpl; [|reflexivity].
    now rewrite !(match_here_fixed _ Hfixed).
  - destruct skip as [|k]; [|apply IH].
    simpl. now rewrite !(match_here_fixed _ Hfixed).
Qed.

Lemma sub_from_skip_all (u : text) :
  forall b prev,
    sub_from fl p repl (List.length u) prev (u ++ b) =
    sub_from fl p repl 0 None b.
Proof.
  induction u as [|c u IH]; intros b prev; [apply sub_from_prev|].
  apply IH.
Qed.

Lemma sub_from_nil_free (skip : nat) (prev : option ascii) :
  sub_from fl p repl skip prev [] = [].
Proof.
  destruct skip; simpl; [|reflexivity].
  now rewrite (match_here_fixed _ Hfixed), free_nonempty.
Qed.

Variable lit : text.
Hypothesis Hlit : accepts cs lit = true.
Hypothesis Hlen : List.length lit = List.length cs.

Lemma sub_from_at_match (b : text) (prev : option ascii) :
  sub_from fl p repl 0 prev (lit ++ b) = repl ++ sub_from fl p repl 0 None b.
Proof.
  pose proof free_nonempty as N. pose proof cs_length as Lc.
  pose proof Hlit as Hl. pose proof Hlen as Hn.
  destruct lit as [|c l]; [now rewrite Hl in N|].
  change ((c :: l) ++ b) with (c :: (l ++ b)).
  rewrite Lc in Hn. simpl in Hn. injection Hn as Hn.
  rewrite (sub_from_hit fl p repl prev c (l ++ b)
             (k := pred (List.length cs))).
  - rewrite <- Hn. now rewrite sub_from_skip_all.
  - rewrite (match_here_fixed _ Hfixed), <- Lc.
    change (c :: (l ++ b)) with ((c :: l) ++ b).
    now rewrite (accepts_app _ _ _ Hl).
Qed.

(** The text before a match and the text after it are rewritten on their
    own. *)
Lemma sub_from_around_match (a b : text) :
  forall skip prev,
    skip <= List.length a ->
    sub_from fl p repl skip prev (a ++ lit ++ b) =
    sub_from fl p repl skip prev a ++ repl ++ sub_from fl p repl 0 None b.
Proof.
  induction a as [|c a IH]; intros skip prev L.
  - simpl in L. assert (skip = 0) as -> by lia.
    rewrite sub_from_nil_free. apply sub_from_at_match.
  - destruct skip as [|k].
    + change ((c :: a) ++ lit ++ b) with (c :: (a ++ lit ++ b)).
      destruct (accepts cs (c :: (a ++ lit ++ b))) eqn:A.
      * assert (Lcs : List.length cs <= List.length (c :: a)).
        { destruct (Nat.le_gt_cases (List.length cs) (List.length (c :: a)))
            as [G|G]; [assumption|exfalso].
          pose proof (@no_overlap (c :: (a ++ lit ++ b))
                        (List.length (c :: a))) as O.
          change (c :: (a ++ lit ++ b)) with ((c :: a) ++ lit ++ b) in O.
          rewrite skipn_length_app in O.
          rewrite (accepts_app _ _ _ Hlit) in O.
          assert (0 < List.length (c :: a)) by (simpl; lia).
          specialize (O H G A). discriminate. }
        assert (A' : accepts cs (c :: a) = true).
        { change (c :: (a ++ lit ++ b)) with ((c :: a) ++ lit ++ b) in A.
          now rewrite accepts_long in A. }
        pose proof cs_length as Lc.
        rewrite (sub_from_hit fl p repl prev c (a ++ lit ++ b)
                   (k := pred (List.length cs)))
          by (now rewrite (match_here_fixed _ Hfixed), A, <- Lc).
        rewrite (sub_from_hit fl p repl prev c a
                   (k := pred (List.length cs)))
          by (now rewrite (match_here_fixed _ Hfixed), A', <- Lc).
        rewrite IH by (simpl in Lcs; lia).
        now rewrite <- app_assoc.
      * assert (A' : accepts cs (c :: a) = false).
        { destruct (accepts cs (c :: a)) eqn:A'; [|reflexivity].
          change (c :: (a ++ lit ++ b)) with ((c :: a) ++ lit ++ b) in A.
          now rewrite (accepts_app _ _ _ A') in A. }
        rewrite (sub_from_miss fl p repl prev c (a ++ lit ++ b))
          by (now rewrite (match_here_fixed _ Hfixed), A).
        rewrite (sub_from_miss fl p repl prev c a)
          by (now rewrite (match_here_fixed _ Hfixed), A').
        rewrite IH by lia. reflexivity.
    + change ((c :: a) ++ lit ++ b) with (c :: (a ++ lit ++ b)).
      rewrite !sub_from_skip. apply IH. simpl in L. lia.
Qed.

Lemma sub_around_match (a b : text) :
  Re.sub fl p repl (a ++ lit ++ b) =
  Re.sub fl p repl a ++ repl ++ Re.sub fl p repl b.
Proof. apply sub_from_around_match. lia. Qed.

End Compose.

(** *** A substitution creates no match of a pattern its replacement
    clashes with *)

Lemma stable_accepts_nil (cs : list cset) (repl : text) :
  stable cs repl = true -> accepts cs [] = false.
Proof. destruct cs; [discriminate|reflexivity]. Qed.

Section Foreign.

(** The flags of the substitution need not be those of the foreign
    pattern. *)
Variable gl : flags.
Variable p : regex.
Variable repl : text.

Lemma foreign_accepts (cs' : list cset) :
  forallb (fun c' => clash c' repl) (tails cs') = true ->
  forall s skip prev,
    accepts cs' (sub_from gl p repl skip prev s) = true ->
    accepts cs' (skipn skip s) = true.
Proof.
  intros Hc s. revert cs' Hc.
  induction s as [|c s IH]; intros cs' Hc skip prev H.
  - rewrite skipn_nil. destruct cs' as [|x cs'']; [reflexivity|].
    cbn [tails forallb] in Hc.
    apply andb_true_iff in Hc. destruct Hc as [Hx Hc].
    destruct skip as [|k]; cbn [Re.sub_from] in H; [|discriminate].
    destruct (match_here gl p prev []) as [[|k]|];
      try discriminate;
      rewrite (clash_accepts _ _ _ Hx) in H; discriminate.
  - destruct skip as [|k]; [|exact (IH cs' Hc k (Some c) H)].
    destruct cs' as [|x cs'']; [reflexivity|].
    cbn [tails forallb] in Hc.
    apply andb_true_iff in Hc. destruct Hc as [Hx Hc].
    cbn [skipn]. cbn [Re.sub_from] in H.
    destruct (match_here gl p prev (c :: s)) as [[|k]|];
      try (rewrite (clash_accepts _ _ _ Hx) in H; discriminate).
    cbn [Fixed.accepts] in H |- *.
    apply andb_true_iff in H. destruct H as [H1 H2].
    rewrite H1. simpl.
    exact (IH cs'' Hc 0 (Some c) H2).
Qed.

Variable cs : list cset.
Hypothesis Hstable : stable cs repl = true.

Lemma occurs_after_repl (x : text) :
  occurs cs (repl ++ x) = true -> occurs cs x = true.
Proof.
  intros H. destruct (occurs cs x) eqn:E; [reflexivity|].
  rewrite (occurs_repl_app cs repl x (stable_inside _ _ Hstable) E) in H.
  discriminate.
Qed.

Lemma foreign_head (c : ascii) (s : text) (q : option ascii) :
  accepts cs (c :: sub_from gl p repl 0 q s) = true ->
  accepts cs (c :: s) = true.
Proof.
  pose proof (stable_into _ _ Hstable) as Hc.
  destruct cs as [|x cs'']; [reflexivity|].
  cbn [tails forallb] in Hc.
  apply andb_true_iff in Hc. destruct Hc as [_ Hc].
  cbn [Fixed.accepts]. intros H.
  apply andb_true_iff in H. destruct H as [H1 H2].
  rewrite H1. simpl. exact (foreign_accepts cs'' Hc s 0 q H2).
Qed.

Lemma foreign_occurs (s : text) :
  forall skip prev,
    occurs cs (sub_from gl p repl skip prev s) = true ->
    occurs cs (skipn skip s) = true.
Proof.
  pose proof (stable_accepts_nil _ _ Hstable) as N.
  assert (O : occurs cs [] = false) by (simpl; now rewrite N).
  induction s as [|c s IH]; intros skip prev H.
  - exfalso. destruct skip as [|k]; cbn [Re.sub_from] in H.
    + destruct (match_here gl p prev []) as [[|k]|];
        try (apply occurs_after_repl in H); congruence.
    + congruence.
  - destruct skip as [|k]; [|exact (IH k (Some c) H)].
    cbn [skipn]. cbn [Re.sub_from] in H.
    destruct (match_here gl p prev (c :: s)) as [[|k]|].
    + apply occurs_after_repl in H. cbn [Fixed.occurs] in H.
      apply orb_true_iff in H. destruct H as [H|H].
      * apply accepts_occurs. exact (foreign_head _ _ _ H).
      * apply occurs_tail. exact (IH 0 (Some c) H).
    + apply occurs_after_repl in H.
      apply (occurs_skipn cs (S k) (c :: s)). exact (IH k (Some c) H).
    + cbn [Fixed.occurs] in H.
      apply orb_true_iff in H. destruct H as [H|H].
      * apply accepts_occurs. exact (foreign_head _ _ _ H).
      * apply occurs_tail. exact (IH 0 (Some c) H).
Qed.

(** What the pattern [cs] does not find in a text, it does not find
    after the substitution. *)
Lemma foreign_sub (content : text) :
  occurs cs content = false ->
  occurs cs (Re.sub gl p repl content) = false.
Proof.
  intros H. destruct (occurs cs (Re.sub gl p repl content)) eqn:E;
    [|reflexivity].
  apply foreign_occurs in E. simpl in E. congruence.
Qed.

End Foreign.

End Accepts.

End FixedFacts.

(** ** Facts about the rules *)

Module RuleFacts.

Import Re ReFacts Fixed FixedFacts Rules.

(** Every pattern of the script is in the fragment [Re.parse] reads. *)
Lemma patterns_parse :
  forallb (fun s => match parse s with Some _ => true | None => false end)
          all_patterns = true.
Proof. vm_compute. reflexivity. Qed.

(** No replacement holds a backslash, so [re.sub] expands nothing in it. *)
Lemma replacements_are_literal :
  forallb (fun r => negb (existsb (Ascii.eqb backslash) r))
          (ca_replacements ++ core_replacements) = true.
Proof. vm_compute. reflexivity. Qed.

Lemma not_found_re_sub pattern repl content fl :
  found pattern fl content = false -> re_sub pattern repl content fl = content.
Proof. apply no_search_sub. Qed.

Lemma found_re_sub pattern repl content fl :
  found pattern fl content = true ->
  exists a b, re_sub pattern repl content fl = a ++ repl ++ b.
Proof. apply search_sub_repl. Qed.


Lemma re_sub_same_or_repl pattern repl content fl :
  re_sub pattern repl content fl = content \/
  exists a b, re_sub pattern repl content fl = a ++ repl ++ b.
Proof. apply sub_same_or_repl. Qed.

(** *** The patterns of fixed length *)

Lemma core_pattern_1_fixed :
  fixed_of (Re.compile core_pattern_1) = Some core_classes_1.
Proof. vm_compute. reflexivity. Qed.

Lemma core_pattern_2_fixed :
  fixed_of (Re.compile core_pattern_2) = Some core_classes_2.
Proof. vm_compute. reflexivity. Qed.

Lemma ca_pattern_3_fixed :
  fixed_of (Re.compile ca_pattern_3) = Some ca_classes_3.
Proof. vm_compute. reflexivity. Qed.

Lemma ca_pattern_5_fixed :
  fixed_of (Re.compile ca_pattern_5) = Some ca_classes_5.
Proof. vm_compute. reflexivity. Qed.

Lemma core_rule_1_stable :
  stable NOFLAGS core_classes_1 core_replacement_1 = true.
Proof. vm_compute. reflexivity. Qed.

Lemma ca_rule_3_stable :
  stable NOFLAGS ca_classes_3 ca_replacement_3 = true.
Proof. vm_compute. reflexivity. Qed.

Lemma ca_rule_5_stable :
  stable NOFLAGS ca_classes_5 ca_replacement_5 = true.
Proof. vm_compute. reflexivity. Qed.

Lemma core_rule_1_free : self_free NOFLAGS core_classes_1 = true.
Proof. vm_compute. reflexivity. Qed.


(** The first substitution of [patch_core] around an eight-digit
    comparison: the comparison is replaced, the text before and the text
    after it are rewritten on their own. *)
Lemma core_step_1_around (lit a b : text) :
  accepts NOFLAGS core_classes_1 lit = true ->
  List.length lit = List.length core_classes_1 ->
  core_step_1 (a ++ lit ++ b) =
  core_step_1 a ++ core_replacement_1 ++ core_step_1 b.
Proof.
  intros A L.
  apply (sub_around_match _ _ core_replacement_1 core_pattern_1_fixed
           core_rule_1_free _ A L).
Qed.


(** The second pattern of [patch_core] ends in the first. *)
Lemma core_classes_2_ends_in_1 :
  exists lead, core_classes_2 = lead ++ core_classes_1.
Proof.
  exists (firstn (List.length core_classes_2 - List.length core_classes_1)
                 core_classes_2).
  vm_compute. reflexivity.
Qed.

Lemma found_core_1 content :
  found core_pattern_1 NOFLAGS content = occurs NOFLAGS core_classes_1 content.
Proof. apply (search_from_fixed NOFLAGS _ core_pattern_1_fixed). Qed.

Lemma found_core_2 content :
  found core_pattern_2 NOFLAGS content = occurs NOFLAGS core_classes_2 content.
Proof. apply (search_from_fixed NOFLAGS _ core_pattern_2_fixed). Qed.

Lemma found_ca_3 content :
  found ca_pattern_3 NOFLAGS content = occurs NOFLAGS ca_classes_3 content.
Proof. apply (search_from_fixed NOFLAGS _ ca_pattern_3_fixed). Qed.

(** After the first substitution of [patch_core] its pattern is found
    nowhere. *)
Lemma core_step_1_clears content :
  found core_pattern_1 NOFLAGS (core_step_1 content) = false.
Proof.
  rewrite found_core_1.
  apply (sub_no_occurrence _ _ _ core_pattern_1_fixed core_rule_1_stable).
Qed.

Lemma core_step_1_changes content :
  found core_pattern_1 NOFLAGS content = true -> core_step_1 content <> content.
Proof.
  rewrite found_core_1.
  apply (sub_changes _ _ _ core_pattern_1_fixed core_rule_1_stable).
Qed.

(** So the second substitution never finds its pattern. *)
Lemma core_step_2_after_1 content :
  core_step_2 (core_step_1 content) = core_step_1 content.
Proof.
  apply not_found_re_sub. rewrite found_core_2.
  destruct (occurs NOFLAGS core_classes_2 (core_step_1 content)) eqn:E;
    [|reflexivity].
  destruct core_classes_2_ends_in_1 as [lead L]. rewrite L in E.
  apply occurs_app_cs in E.
  rewrite <- found_core_1, core_step_1_clears in E. discriminate.
Qed.

(** [patch_core], by whether the eight-digit comparison is in the text. *)
Lemma patch_core_run_strict original :
  found core_pattern_1 NOFLAGS original = true ->
  patch_core_run original = (core_step_1 original, [1; 2]).
Proof.
  intros H. unfold patch_core_run. rewrite core_step_2_after_1.
  apply core_step_1_changes in H. apply text_eqb_false in H.
  now rewrite H.
Qed.

Lemma patch_core_run_loose original :
  found core_pattern_1 NOFLAGS original = false ->
  patch_core_run original = (core_step_3 original, [1; 2; 3]).
Proof.
  intros H. unfold patch_core_run. rewrite core_step_2_after_1.
  unfold core_step_1 at 1 2. rewrite (@not_found_re_sub _ _ _ _ H).
  now rewrite text_eqb_refl.
Qed.

End RuleFacts.

(** ** Facts about the script's runs *)

Module ScriptFacts.

Import Rules Fs Script.

Ltac run_script :=
  cbv beta iota delta
    [bind ret raise print log exists_ read_text write_text];
  simpl.

Lemma patch_content_analyser_run (p : path) (original : text) (w : world) :
  disk w p = Some (File original) ->
  patch_content_analyser p w =
  (Ok tt,
   let content := patch_content_analyser_text original in
   if text_eqb content original
   then World (disk w) (ops w ++ [OpRead p])
              (console w ++ [MsgNoChanges (name p); MsgStructureChanged])
   else World (update (disk w) p content)
              (ops w ++ [OpRead p; OpWrite p content])
              (console w ++ [MsgPatched (name p)])).
Proof.
  intros H. unfold patch_content_analyser. run_script. rewrite H.
  destruct (text_eqb (patch_content_analyser_text original) original);
    simpl; rewrite ?H, <- ?app_assoc; reflexivity.
Qed.

Lemma patch_core_world (p : path) (original : text) (w : world) :
  disk w p = Some (File original) ->
  patch_core p w =
  (Ok tt,
   let content := patch_core_text original in
   if text_eqb content original
   then World (disk w) (ops w ++ [OpRead p])
              (console w ++ [MsgNoChanges (name p); MsgStructureChanged])
   else World (update (disk w) p content)
              (ops w ++ [OpRead p; OpWrite p content])
              (console w ++ [MsgPatched (name p)])).
Proof.
  intros H. unfold patch_core. run_script. rewrite H.
  destruct (text_eqb (patch_core_text original) original);
    simpl; rewrite ?H, <- ?app_assoc; reflexivity.
Qed.

Lemma update_same (d : files) (p : path) (content : text) :
  update d p content p = Some (File content).
Proof. unfold update. now destruct (path_eq_dec p p). Qed.

Lemma update_other (d : files) (p q : path) (content : text) :
  q <> p -> update d p content q = d q.
Proof. intros H. unfold update. now destruct (path_eq_dec q p). Qed.

Lemma report_checks_run (cs : list (string * bool)) :
  forall success w,
    report_checks cs success w =
    (Ok (success && forallb snd cs),
     World (disk w) (ops w) (console w ++ check_messages cs)).
Proof.
  induction cs as [|[label passed] cs IH]; intros success w.
  - simpl. unfold ret. rewrite andb_true_r, app_nil_r. now destruct w.
  - destruct passed; simpl; unfold bind, print; rewrite IH; simpl;
      rewrite <- app_assoc; simpl; [reflexivity|].
    now rewrite andb_false_r.
Qed.

Lemma verify_patches_run (source_dir : path) (w : world) :
  fst (verify_patches source_dir w) = verified (disk w) source_dir /\
  disk (snd (verify_patches source_dir w)) = disk w /\
  console (snd (verify_patches source_dir w)) =
    console w ++ verify_console (disk w) source_dir /\
  wrote w (snd (verify_patches source_dir w)) = false.
Proof.
  unfold verify_patches, verified, verify_console, hash_message, wrote,
    new_ops.
  cbv beta iota zeta delta [bind ret raise print log exists_ read_text].
  cbn [disk ops console].
  destruct (disk w (content_analyser_path source_dir)) as [[c1|]|] eqn:E1;
    repeat (rewrite ?E1, ?report_checks_run;
            cbn [disk ops console fst snd]; cbv beta iota);
    try (rewrite <- ?app_assoc, ?skipn_length_app, ?app_nil_r; now auto);
    destruct (disk w (core_path source_dir)) as [[c2|]|] eqn:E2;
    repeat (rewrite ?E2; cbn [disk ops console fst snd]; cbv beta iota);
    try destruct (contains marker_patched c2);
    cbn [disk ops console fst snd];
    rewrite <- ?app_assoc, ?skipn_length_app, ?app_nil_r, ?andb_true_r,
      ?andb_false_r; auto.
Qed.

End ScriptFacts.


(** ** The specification, statement by statement *)

Import Re Fixed Rules Samples Fs Script Worlds.
Import ReFacts FixedFacts RuleFacts ScriptFacts.

(** *** Writing back (C2) *)

Lemma patch_content_analyser_quiet (original : text) :
  forallb (fun r => negb (rule_found r original)) content_analyser_rules
  = true ->
  patch_content_analyser_text original = original.
Proof.
  intros H. cbn [forallb content_analyser_rules] in H.
  repeat (apply andb_true_iff in H; destruct H as [?H H]).
  repeat match goal with
         | Hn : negb (rule_found _ _) = true |- _ =>
             apply negb_true_iff in Hn; unfold rule_found in Hn;
             cbn [rule_pattern rule_flags] in Hn
         end.
  unfold patch_content_analyser_text, ca_step_1, ca_step_2, ca_step_3,
    ca_step_4, ca_step_5, ca_step_6, ca_step_7.
  rewrite (@not_found_re_sub _ _ _ _ H0), (@not_found_re_sub _ _ _ _ H1),
    (@not_found_re_sub _ _ _ _ H2), (@not_found_re_sub _ _ _ _ H3),
    (@not_found_re_sub _ _ _ _ H4), (@not_found_re_sub _ _ _ _ H5).
  apply (@not_found_re_sub _ _ _ _ H6).
Qed.

Lemma patch_core_quiet (original : text) :
  forallb (fun r => negb (rule_found r original)) core_rules = true ->
  patch_core_text original = original.
Proof.
  intros H. cbn [forallb core_rules] in H.
  repeat (apply andb_true_iff in H; destruct H as [?H H]).
  repeat match goal with
         | Hn : negb (rule_found _ _) = true |- _ =>
             apply negb_true_iff in Hn; unfold rule_found in Hn;
             cbn [rule_pattern rule_flags] in Hn
         end.
  unfold patch_core_text, patch_core_run, core_step_1, core_step_2,
    core_step_3.
  rewrite (@not_found_re_sub _ _ _ _ H0), (@not_found_re_sub _ _ _ _ H1).
  rewrite text_eqb_refl. cbn [fst].
  apply (@not_found_re_sub _ _ _ _ H2).
Qed.

Lemma patched_world_facts (f : text -> text) (p : path) (original : text)
  (w : world) :
  let w1 := patched_world f p original w in
  (wrote w w1 = true <-> f original <> original) /\
  (f original <> original ->
     new_ops w w1 = [OpRead p; OpWrite p (f original)] /\
     disk w1 p = Some (File (f original)) /\
     new_console w w1 = [MsgPatched (name p)]) /\
  (f original = original ->
     disk w1 = disk w /\
     new_ops w w1 = [OpRead p] /\
     new_console w w1 = [MsgNoChanges (name p); MsgStructureChanged]).
Proof.
  unfold patched_world, wrote, new_ops, new_console.
  destruct (text_eqb (f original) original) eqn:E; cbn [disk ops console];
    rewrite !skipn_length_app.
  - apply text_eqb_true in E. repeat split; try (intros; congruence).
    simpl. discriminate.
  - apply text_eqb_false in E. repeat split; try (intros; congruence).
    apply update_same.
Qed.

Lemma patch_content_analyser_facts (p : path) (original : text)
  (w : world) :
  disk w p = Some (File original) ->
  let w1 := snd (patch_content_analyser p w) in
  let content := patch_content_analyser_text original in
  fst (patch_content_analyser p w) = Ok tt /\
  (wrote w w1 = true <-> content <> original) /\
  (content <> original ->
     new_ops w w1 = [OpRead p; OpWrite p content] /\
     disk w1 p = Some (File content) /\
     new_console w w1 = [MsgPatched (name p)]) /\
  (content = original ->
     disk w1 = disk w /\
     new_ops w w1 = [OpRead p] /\
     new_console w w1 = [MsgNoChanges (name p); MsgStructureChanged]).
Proof.
  intros H. rewrite (@patch_content_analyser_run p original w H).
  cbn [fst snd]. split; [reflexivity|].
  apply (patched_world_facts patch_content_analyser_text p original w).
Qed.

Lemma patch_core_facts (p : path) (original : text) (w : world) :
  disk w p = Some (File original) ->
  let w1 := snd (patch_core p w) in
  let content := patch_core_text original in
  fst (patch_core p w) = Ok tt /\
  (wrote w w1 = true <-> content <> original) /\
  (content <> original ->
     new_ops w w1 = [OpRead p; OpWrite p content] /\
     disk w1 p = Some (File content) /\
     new_console w w1 = [MsgPatched (name p)]) /\
  (content = original ->
     disk w1 = disk w /\
     new_ops w w1 = [OpRead p] /\
     new_console w w1 = [MsgNoChanges (name p); MsgStructureChanged]).
Proof.
  intros H. rewrite (@patch_core_world p original w H).
  cbn [fst snd]. split; [reflexivity|].
  apply (patched_world_facts patch_core_text p original w).
Qed.

(** C2: a target file that [patch_content_analyser] or [patch_core]
    processes is written back if and only if the transformed text differs
    from the text read; when the text is unchanged (as it is when no
    rule's pattern is found) the disk is as it was and only the warning is
    printed. *)
Theorem write_back_iff_changed (p : path) (original : text) (w : world) :
  disk w p = Some (File original) ->
  (let w1 := snd (patch_content_analyser p w) in
   let content := patch_content_analyser_text original in
   fst (patch_content_analyser p w) = Ok tt /\
   (wrote w w1 = true <-> content <> original) /\
   (content <> original ->
      new_ops w w1 = [OpRead p; OpWrite p content] /\
      disk w1 p = Some (File content) /\
      new_console w w1 = [MsgPatched (name p)]) /\
   (content = original ->
      disk w1 = disk w /\
      new_ops w w1 = [OpRead p] /\
      new_console w w1 = [MsgNoChanges (name p); MsgStructureChanged]) /\
   (forallb (fun r => negb (rule_found r original)) content_analyser_rules
    = true -> content = original)) /\
  (let w1 := snd (patch_core p w) in
   let content := patch_core_text original in
   fst (patch_core p w) = Ok tt /\
   (wrote w w1 = true <-> content <> original) /\
   (content <> original ->
      new_ops w w1 = [OpRead p; OpWrite p content] /\
      disk w1 p = Some (File content) /\
      new_console w w1 = [MsgPatched (name p)]) /\
   (content = original ->
      disk w1 = disk w /\
      new_ops w w1 = [OpRead p] /\
      new_console w w1 = [MsgNoChanges (name p); MsgStructureChanged]) /\
   (forallb (fun r => negb (rule_found r original)) core_rules = true ->
    content = original)).
Proof.
  intros H. split.
  - destruct (patch_content_analyser_facts p w H) as (R & A & B & C).
    split; [exact R|]. split; [exact A|]. split; [exact B|].
    split; [exact C|]. apply patch_content_analyser_quiet.
  - destruct (patch_core_facts p w H) as (R & A & B & C).
    split; [exact R|]. split; [exact A|]. split; [exact B|].
    split; [exact C|]. apply patch_core_quiet.
Qed.

Lemma write_back_iff_changed_witness :
  disk upstream (core_path source_dir) = Some (File core_py) /\
  (wrote upstream (snd (patch_core (core_path source_dir) upstream)) = true
   <-> patch_core_text core_py <> core_py).
Proof.
  assert (H : disk upstream (core_path source_dir) = Some (File core_py))
    by reflexivity.
  split; [exact H|].
  destruct (write_back_iff_changed (core_path source_dir) upstream H)
    as [_ (_ & A & _)].
  exact A.
Defined.

(** *** The verifier (C3) *)

Lemma ok_true_iff (b : bool) : @Ok bool b = Ok true <-> b = true.
Proof. split; [now intros [= ->] | now intros ->]. Qed.

Lemma all_found_checks (content : text) :
  forallb snd (checks content) =
  forallb (fun m => contains m content)
          [marker_models_removed; marker_pre_check; marker_check_disabled].
Proof. reflexivity. Qed.

Lemma markers_distinct :
  NoDup [marker_models_removed; marker_pre_check; marker_check_disabled].
Proof.
  repeat (constructor;
          [simpl; intros K;
           repeat (destruct K as [K|K];
                   [vm_compute in K; discriminate K|]); exact K|]).
  constructor.
Qed.

(** The three lines for the moderation file come first. *)
Lemma verify_patches_moderation_lines (d : path) (w : world)
  (content : text) :
  disk w (content_analyser_path d) = Some (File content) ->
  exists rest,
    new_console w (snd (verify_patches d w)) =
    [ check_line "NSFW models removed"
        (contains marker_models_removed content);
      check_line "pre_check disabled"
        (contains marker_pre_check content);
      check_line "analyse_frame disabled"
        (contains marker_check_disabled content) ] ++ rest.
Proof.
  intros H. destruct (verify_patches_run d w) as (_ & _ & C & _).
  unfold new_console. rewrite C, skipn_length_app.
  unfold verify_console. rewrite H. eexists. reflexivity.
Qed.

(** The line for the integrity file comes last. *)
Lemma verify_patches_hash_line (d : path) (w : world) (content : text) :
  disk w (content_analyser_path d) <> Some Dir ->
  disk w (core_path d) = Some (File content) ->
  exists before,
    new_console w (snd (verify_patches d w)) =
    before ++ [if contains marker_patched content
               then MsgCheckPassed hash_label
               else MsgCheckFailed hash_failed_label].
Proof.
  intros H1 H2. destruct (verify_patches_run d w) as (_ & _ & C & _).
  unfold new_console. rewrite C, skipn_length_app.
  unfold verify_console, hash_message. rewrite H2.
  destruct (disk w (content_analyser_path d)) as [[c1|]|];
    [|congruence|]; eexists; reflexivity.
Qed.

(** C3: [verify_patches] returns true exactly when every marker it checks
    is in every target file that exists: three markers for the moderation
    file, each reported on a line of its own whether or not an earlier one
    was missing, and the marker [# PATCHED] for the integrity file; a
    target that does not exist is passed over without a line and without
    a failure.  (A directory at a target path holds no marker; reading it
    raises, and no value is returned.) *)
Theorem verify_patches_true_iff (d : path) (w : world) :
  (fst (verify_patches d w) = Ok true <->
   all_found (disk w) (content_analyser_path d)
     [marker_models_removed; marker_pre_check; marker_check_disabled] = true
   /\ all_found (disk w) (core_path d) [marker_patched] = true) /\
  (forall content,
     disk w (content_analyser_path d) = Some (File content) ->
     exists rest,
       new_console w (snd (verify_patches d w)) =
       [ check_line "NSFW models removed"
           (contains marker_models_removed content);
         check_line "pre_check disabled"
           (contains marker_pre_check content);
         check_line "analyse_frame disabled"
           (contains marker_check_disabled content) ] ++ rest) /\
  (forall content,
     disk w (content_analyser_path d) <> Some Dir ->
     disk w (core_path d) = Some (File content) ->
     exists before,
       new_console w (snd (verify_patches d w)) =
       before ++ [if contains marker_patched content
                  then MsgCheckPassed hash_label
                  else MsgCheckFailed hash_failed_label]) /\
  (disk w (content_analyser_path d) = None ->
   disk w (core_path d) = None ->
   fst (verify_patches d w) = Ok true /\
   new_console w (snd (verify_patches d w)) = []) /\
  disk (snd (verify_patches d w)) = disk w /\
  wrote w (snd (verify_patches d w)) = false /\
  NoDup [marker_models_removed; marker_pre_check; marker_check_disabled].
Proof.
  destruct (verify_patches_run d w) as (R & D & C & W).
  unfold new_console. rewrite R, C, skipn_length_app.
  unfold verified, verify_console, all_found, hash_message.
  split; [|split; [|split; [|split; [|split; [exact D|split; [exact W|]]]]]];
    [| | | |apply markers_distinct].
  - destruct (disk w (content_analyser_path d)) as [[c1|]|];
      destruct (disk w (core_path d)) as [[c2|]|];
      rewrite <- ?all_found_checks;
      cbn [forallb]; rewrite ?andb_true_r;
      try (rewrite ok_true_iff, ?andb_true_iff; tauto);
      (split; [discriminate | intros [? ?]; discriminate]).
  - intros content H.
    destruct (verify_patches_moderation_lines d w H) as [rest E].
    exists rest. unfold new_console in E.
    now rewrite C, skipn_length_app in E.
  - intros content H1 H2.
    destruct (verify_patches_hash_line d w H1 H2) as [before E].
    exists before. unfold new_console in E.
    now rewrite C, skipn_length_app in E.
  - intros H1 H2. rewrite H1, H2. split; reflexivity.
Qed.

Lemma verify_patches_true_iff_witness :
  disk (fresh (checkout None (Some (File core_py))))
       (content_analyser_path source_dir) <> Some Dir /\
  disk (fresh (checkout None (Some (File core_py))))
       (core_path source_dir) = Some (File core_py) /\
  exists before,
    new_console (fresh (checkout None (Some (File core_py))))
      (snd (verify_patches source_dir
              (fresh (checkout None (Some (File core_py)))))) =
    before ++ [MsgCheckFailed hash_failed_label].
Proof.
  assert (H1 : disk (fresh (checkout None (Some (File core_py))))
                    (content_analyser_path source_dir) <> Some Dir)
    by (vm_compute; discriminate).
  assert (H2 : disk (fresh (checkout None (Some (File core_py))))
                    (core_path source_dir) = Some (File core_py))
    by reflexivity.
  split; [exact H1|]. split; [exact H2|].
  destruct (verify_patches_true_iff source_dir
              (fresh (checkout None (Some (File core_py)))))
    as (_ & _ & A & _).
  exact (A core_py H1 H2).
Defined.

(** *** The entry point (C7) *)

(** C7: [main] ends with a non-zero status, and before it attempts any
    write, when [sys.argv] does not hold exactly one argument after the
    program name, or the source directory is missing, or one of the two
    target paths is missing under it; with the wrong number of arguments
    it touches no file at all. *)
Theorem main_fails_before_writing (argv : list string) (w : world) :
  let source_dir := Path (nth 1 argv EmptyString) in
  List.length argv <> 2 \/
  disk w source_dir = None \/
  disk w (content_analyser_path source_dir) = None \/
  disk w (core_path source_dir) = None ->
  exit_status (fst (main argv w)) = 1 /\
  disk (snd (main argv w)) = disk w /\
  wrote w (snd (main argv w)) = false /\
  forallb is_exists (new_ops w (snd (main argv w))) = true /\
  (List.length argv <> 2 -> ops (snd (main argv w)) = ops w).
Proof.
  intros source_dir H. subst source_dir.
  unfold wrote, new_ops.
  destruct argv as [|prog [|dir [|extra rest]]].
  - repeat split; reflexivity || (simpl; now rewrite skipn_all).
  - repeat split; reflexivity || (simpl; now rewrite skipn_all).
  - cbn [nth List.length] in H.
    unfold main. cbn [nth List.length Nat.eqb].
    cbv beta iota zeta delta [bind ret raise print log exists_].
    cbn [disk ops console fst snd].
    destruct (disk w (Path dir)) as [e0|] eqn:E0;
      cbn [disk ops console fst snd];
      [|repeat split; try reflexivity; try (now rewrite skipn_length_app);
        intros N; now elim N].
    destruct (disk w (content_analyser_path (Path dir))) as [e1|] eqn:E1;
      cbn [disk ops console fst snd];
      [|repeat split; try reflexivity;
        try (now rewrite <- app_assoc, skipn_length_app);
        intros N; now elim N].
    destruct (disk w (core_path (Path dir))) as [e2|] eqn:E2;
      cbn [disk ops console fst snd];
      [|repeat split; try reflexivity;
        try (now rewrite <- !app_assoc, skipn_length_app);
        intros N; now elim N].
    exfalso. destruct H as [H|[H|[H|H]]]; congruence.
  - repeat split; reflexivity || (simpl; now rewrite skipn_all).
Qed.

Lemma main_fails_before_writing_witness :
  (List.length ["patch-facefusion.py"%string; "checkout"%string] <> 2 \/
   disk (fresh (checkout (Some (File content_analyser_py)) None))
        (Path "checkout") = None \/
   disk (fresh (checkout (Some (File content_analyser_py)) None))
        (content_analyser_path (Path "checkout")) = None \/
   disk (fresh (checkout (Some (File content_analyser_py)) None))
        (core_path (Path "checkout")) = None) /\
  exit_status
    (fst (main ["patch-facefusion.py"%string; "checkout"%string]
            (fresh (checkout (Some (File content_analyser_py)) None)))) = 1.
Proof.
  assert (H : List.length ["patch-facefusion.py"%string; "checkout"%string]
              <> 2 \/
              disk (fresh (checkout (Some (File content_analyser_py)) None))
                   (Path "checkout") = None \/
              disk (fresh (checkout (Some (File content_analyser_py)) None))
                   (content_analyser_path (Path "checkout")) = None \/
              disk (fresh (checkout (Some (File content_analyser_py)) None))
                   (core_path (Path "checkout")) = None)
    by (right; right; right; reflexivity).
  split; [exact H|].
  exact (proj1 (main_fails_before_writing
                  ["patch-facefusion.py"%string; "checkout"%string]
                  (fresh (checkout (Some (File content_analyser_py)) None))
                  H)).
Defined.

(** *** The integrity file (C5, C6, C10) *)

Lemma core_replacements_marked :
  forallb (contains marker_patched) core_replacements = true.
Proof. vm_compute. reflexivity. Qed.

Lemma contains_repl_marker (m repl a b : text) :
  contains m repl = true -> contains m (a ++ repl ++ b) = true.
Proof.
  intros H. apply contains_trans with (n := repl); [assumption|].
  apply contains_intro.
Qed.

(** C6: in [patch_core] the third, looser substitution is attempted if
    and only if the text after the first two is still the text read;
    when one of the first two changed the text, the looser pattern is
    not applied and the result is the text after the first two. *)
Theorem loose_pattern_iff_unchanged (original : text) :
  (In 3 (patch_core_attempts original) <->
   core_step_2 (core_step_1 original) = original) /\
  (core_step_2 (core_step_1 original) = original ->
   patch_core_attempts original = [1; 2; 3] /\
   patch_core_text original = core_step_3 original) /\
  (core_step_2 (core_step_1 original) <> original ->
   patch_core_attempts original = [1; 2] /\
   patch_core_text original = core_step_2 (core_step_1 original)) /\
  (core_step_2 (core_step_1 original) = original <->
   found core_pattern_1 NOFLAGS original = false).
Proof.
  unfold patch_core_attempts, patch_core_text, patch_core_run.
  destruct (text_eqb (core_step_2 (core_step_1 original)) original) eqn:E;
    cbn [fst snd].
  - apply text_eqb_true in E.
    split; [split; [intros _; exact E | intros _; simpl; auto]|].
    split; [intros _; split; [reflexivity | now rewrite E]|].
    split; [intros N; congruence|].
    split; [|intros _; exact E].
    intros _. destruct (found core_pattern_1 NOFLAGS original) eqn:F;
      [|reflexivity].
    rewrite core_step_2_after_1 in E.
    now apply core_step_1_changes in F.
  - apply text_eqb_false in E.
    split; [split; [intros [H|[H|[]]]; discriminate | congruence]|].
    split; [congruence|].
    split; [intros _; split; reflexivity|].
    split; [congruence|].
    intros F. exfalso. apply E. rewrite core_step_2_after_1.
    now apply not_found_re_sub.
Qed.

Lemma loose_pattern_iff_unchanged_witness :
  core_step_2 (core_step_1 core_py) <> core_py /\
  patch_core_attempts core_py = [1; 2] /\
  patch_core_text core_py = core_step_2 (core_step_1 core_py).
Proof.
  assert (H : core_step_2 (core_step_1 core_py) <> core_py)
    by (vm_compute; discriminate).
  split; [exact H|].
  destruct (loose_pattern_iff_unchanged core_py) as (_ & _ & A & _).
  exact (A H).
Defined.

Lemma patch_core_changed_marked (original : text) :
  patch_core_text original <> original ->
  contains marker_patched (patch_core_text original) = true.
Proof.
  unfold patch_core_text, patch_core_run.
  destruct (text_eqb (core_step_2 (core_step_1 original)) original) eqn:E;
    cbn [fst]; intros N.
  - destruct (re_sub_same_or_repl core_pattern_3 core_replacement_3
                (core_step_2 (core_step_1 original)) NOFLAGS)
      as [S|(a & b & S)]; unfold core_step_3 in *; rewrite S in *.
    + apply text_eqb_true in E. congruence.
    + now apply contains_repl_marker.
  - apply text_eqb_false in E.
    destruct (re_sub_same_or_repl core_pattern_2 core_replacement_2
                (core_step_1 original) NOFLAGS)
      as [S2|(a & b & S2)]; unfold core_step_2 in *; rewrite S2 in *.
    + destruct (re_sub_same_or_repl core_pattern_1 core_replacement_1
                  original NOFLAGS)
        as [S1|(a & b & S1)]; unfold core_step_1 in *; rewrite S1 in *.
      * congruence.
      * now apply contains_repl_marker.
    + now apply contains_repl_marker.
Qed.

(** The last line [verify_patches] prints when the integrity file holds
    the marker. *)
Lemma verify_patches_hash_passed (d : path) (w : world) (content : text) :
  disk w (content_analyser_path d) <> Some Dir ->
  disk w (core_path d) = Some (File content) ->
  contains marker_patched content = true ->
  exists before,
    new_console w (snd (verify_patches d w)) =
    before ++ [MsgCheckPassed hash_label].
Proof.
  intros H1 H2 H3.
  destruct (verify_patches_hash_line d w H1 H2) as [before E].
  exists before. now rewrite E, H3.
Qed.

Lemma core_path_not_content_analyser (d : path) :
  content_analyser_path d <> core_path d.
Proof.
  unfold content_analyser_path, core_path, join. intros E.
  apply app_inv_head in E. discriminate.
Qed.

(** After [patch_core] changed the integrity file, [verify_patches] ends
    with the line for a bypassed hash check. *)
Lemma patch_core_then_verify (d : path) (original : text) (w : world) :
  disk w (core_path d) = Some (File original) ->
  patch_core_text original <> original ->
  disk w (content_analyser_path d) <> Some Dir ->
  exists before,
    new_console (snd (patch_core (core_path d) w))
      (snd (verify_patches d (snd (patch_core (core_path d) w)))) =
    before ++ [MsgCheckPassed hash_label].
Proof.
  intros H W N.
  destruct (patch_core_facts (core_path d) w H) as (_ & _ & B & _).
  destruct (B W) as (_ & D & _).
  apply verify_patches_hash_passed with (content := patch_core_text original);
    [|exact D|now apply patch_core_changed_marked].
  rewrite (@patch_core_world (core_path d) original w H). cbn [snd].
  apply text_eqb_false in W. rewrite W. cbn [disk].
  rewrite update_other; [assumption|apply core_path_not_content_analyser].
Qed.

(** C10: whenever [patch_core] writes the integrity file back, the text
    it writes holds [# PATCHED], as every replacement of [patch_core]
    does; so the integrity check of [verify_patches] passes on a file
    [patch_core] has modified. *)
Theorem patch_core_write_has_marker (d : path) (original : text)
  (w : world) :
  disk w (core_path d) = Some (File original) ->
  wrote w (snd (patch_core (core_path d) w)) = true ->
  forallb (contains marker_patched) core_replacements = true /\
  disk (snd (patch_core (core_path d) w)) (core_path d) =
    Some (File (patch_core_text original)) /\
  contains marker_patched (patch_core_text original) = true /\
  (disk w (content_analyser_path d) <> Some Dir ->
   exists before,
     new_console (snd (patch_core (core_path d) w))
       (snd (verify_patches d (snd (patch_core (core_path d) w)))) =
     before ++ [MsgCheckPassed hash_label]).
Proof.
  intros H W.
  destruct (patch_core_facts (core_path d) w H) as (_ & A & B & _).
  apply A in W. destruct (B W) as (_ & D & _).
  pose proof (patch_core_changed_marked W) as M.
  split; [apply core_replacements_marked|].
  split; [exact D|]. split; [exact M|].
  intros N. exact (@patch_core_then_verify d original w H W N).
Qed.

Lemma patch_core_write_has_marker_witness :
  disk upstream (core_path source_dir) = Some (File core_py) /\
  wrote upstream (snd (patch_core (core_path source_dir) upstream)) = true /\
  contains marker_patched (patch_core_text core_py) = true.
Proof.
  assert (H : disk upstream (core_path source_dir) = Some (File core_py))
    by reflexivity.
  assert (W : wrote upstream
                (snd (patch_core (core_path source_dir) upstream)) = true)
    by (vm_compute; reflexivity).
  split; [exact H|]. split; [exact W|].
  destruct (patch_core_write_has_marker source_dir upstream H W)
    as (_ & _ & A & _).
  exact A.
Defined.

(** C5: where the integrity file holds the comparison of the hash with
    ['deadbeef'], [patch_core] puts [True  # PATCHED: Hash check bypassed]
    in its place, with the text before and the text after it rewritten
    by the same substitution: the result holds that text, holds the
    comparison no longer, and [verify_patches] then reports the hash
    check as passed. *)
Theorem deadbeef_comparison_replaced (d : path) (original : text)
  (w : world) :
  contains deadbeef_comparison original = true ->
  patch_core_text original = core_step_1 original /\
  (forall a b,
     original = a ++ deadbeef_comparison ++ b ->
     patch_core_text original =
     core_step_1 a ++ core_replacement_1 ++ core_step_1 b) /\
  contains core_replacement_1 (patch_core_text original) = true /\
  contains deadbeef_comparison (patch_core_text original) = false /\
  found core_pattern_1 NOFLAGS (patch_core_text original) = false /\
  contains marker_patched (patch_core_text original) = true /\
  (disk w (core_path d) = Some (File original) ->
   disk w (content_analyser_path d) <> Some Dir ->
   wrote w (snd (patch_core (core_path d) w)) = true /\
   exists before,
     new_console (snd (patch_core (core_path d) w))
       (snd (verify_patches d (snd (patch_core (core_path d) w)))) =
     before ++ [MsgCheckPassed hash_label]).
Proof.
  intros H.
  assert (F : found core_pattern_1 NOFLAGS original = true).
  { rewrite found_core_1.
    apply contains_occurs with (lit := deadbeef_comparison);
      [vm_compute; reflexivity|assumption]. }
  assert (E : patch_core_text original = core_step_1 original).
  { unfold patch_core_text. now rewrite (patch_core_run_strict _ F). }
  assert (C : found core_pattern_1 NOFLAGS (patch_core_text original)
              = false)
    by (rewrite E; apply core_step_1_clears).
  assert (R : contains core_replacement_1 (patch_core_text original) = true).
  { rewrite E. destruct (@found_re_sub _ core_replacement_1 _ _ F)
      as (a & b & S).
    unfold core_step_1. rewrite S. apply contains_intro. }
  assert (M : contains marker_patched (patch_core_text original) = true).
  { apply contains_trans with (n := core_replacement_1);
      [vm_compute; reflexivity|assumption]. }
  assert (N : patch_core_text original <> original).
  { rewrite E. now apply core_step_1_changes. }
  split; [exact E|].
  split.
  { intros a b O. rewrite E, O.
    apply core_step_1_around; vm_compute; reflexivity. }
  split; [exact R|].
  split; [|split; [exact C|split; [exact M|]]].
  - destruct (contains deadbeef_comparison (patch_core_text original)) eqn:K;
      [|reflexivity].
    rewrite found_core_1 in C.
    rewrite (@contains_occurs NOFLAGS core_classes_1 deadbeef_comparison)
      in C; [discriminate|vm_compute; reflexivity|assumption].
  - intros H0 H1.
    destruct (patch_core_facts (core_path d) w H0) as (_ & A & _).
    split; [now apply A|].
    exact (@patch_core_then_verify d original w H0 N H1).
Qed.

Lemma deadbeef_comparison_replaced_witness :
  contains deadbeef_comparison
    (raw "ok = content_analyser_hash == 'deadbeef'") = true /\
  patch_core_text (raw "ok = content_analyser_hash == 'deadbeef'") =
    raw "ok = True  # PATCHED: Hash check bypassed".
Proof.
  assert (H : contains deadbeef_comparison
                (raw "ok = content_analyser_hash == 'deadbeef'") = true)
    by (vm_compute; reflexivity).
  split; [exact H|].
  destruct (@deadbeef_comparison_replaced source_dir
              (raw "ok = content_analyser_hash == 'deadbeef'") upstream H)
    as (A & _).
  rewrite A. vm_compute. reflexivity.
Defined.

(** *** The rules of the moderation file (C9) *)

Lemma patch_content_analyser_text_rules (content : text) :
  patch_content_analyser_text content =
  apply_rules content_analyser_rules content.
Proof.
  unfold patch_content_analyser_text, apply_rules, content_analyser_rules.
  cbn [fold_left].
  unfold ca_step_1, ca_step_2, ca_step_3, ca_step_4, ca_step_5, ca_step_6,
    ca_step_7, apply_rule.
  cbn [rule_pattern rule_replacement rule_flags].
  reflexivity.
Qed.

Lemma patch_core_text_rules (original : text) :
  patch_core_text original =
  if text_eqb (apply_rules (firstn 2 core_rules) original) original
  then apply_rules core_rules original
  else apply_rules (firstn 2 core_rules) original.
Proof.
  unfold patch_core_text, patch_core_run, apply_rules, core_rules.
  cbn [firstn fold_left].
  unfold core_step_1, core_step_2, core_step_3, apply_rule.
  cbn [rule_pattern rule_replacement rule_flags].
  match goal with |- context [text_eqb ?a ?b] => destruct (text_eqb a b) end;
    reflexivity.
Qed.

(** With six rules the statement fails: the table has seven entries,
    and the seventh changes a text the first six leave alone. *)
Lemma six_rules_counterexample :
  List.length content_analyser_rules <> 6 /\
  apply_rules (firstn 6 content_analyser_rules) detect_nsfw_only =
    detect_nsfw_only /\
  patch_content_analyser_text detect_nsfw_only <> detect_nsfw_only.
Proof.
  split; [discriminate|]. split; [vm_compute; reflexivity|].
  vm_compute. discriminate.
Qed.

(** C9, amended: [patch_content_analyser] applies, in a fixed order,
    exactly seven rewrite rules to the text of the moderation file, each
    on the text the rule before it left, and each written against a
    function of its own: [create_static_model_set], [pre_check],
    [analyse_frame], [analyse_stream], [analyse_image], [analyse_video]
    and [detect_nsfw]; none of the seven can be left out without changing
    what the function does. *)
Theorem seven_rules_in_order :
  (forall content,
     patch_content_analyser_text content =
     apply_rules content_analyser_rules content) /\
  List.length content_analyser_rules = 7 /\
  map (fun r => target_name (rule_pattern r)) content_analyser_rules =
    [ Some (raw "create_static_model_set"); Some (raw "pre_check");
      Some (raw "analyse_frame"); Some (raw "analyse_stream");
      Some (raw "analyse_image"); Some (raw "analyse_video");
      Some (raw "detect_nsfw") ] /\
  NoDup (map (fun r => target_name (rule_pattern r)) content_analyser_rules)
  /\
  forallb (fun i =>
             negb (text_eqb
                     (apply_rules (without i content_analyser_rules)
                                  content_analyser_py)
                     (apply_rules content_analyser_rules
                                  content_analyser_py)))
          (seq 0 7) = true.
Proof.
  split; [exact patch_content_analyser_text_rules|].
  split; [reflexivity|].
  assert (T : map (fun r => target_name (rule_pattern r))
                  content_analyser_rules =
              [ Some (raw "create_static_model_set"); Some (raw "pre_check");
                Some (raw "analyse_frame"); Some (raw "analyse_stream");
                Some (raw "analyse_image"); Some (raw "analyse_video");
                Some (raw "detect_nsfw") ])
    by (vm_compute; reflexivity).
  split; [exact T|]. split.
  - rewrite T.
    repeat (constructor;
            [simpl; intros K;
             repeat (destruct K as [K|K]; [discriminate|]); exact K|]).
    constructor.
  - vm_compute. reflexivity.
Qed.

(** *** Markers (C8) *)

(** Distinct markers per rule fail: the third and the fourth rule are
    different rules with one marker, and on a text where only the fourth
    rule finds its pattern the marker that [verify_patches] reads as
    [analyse_frame disabled] is there although the third rule found
    nothing. *)
Lemma distinct_markers_counterexample :
  ca_pattern_3 <> ca_pattern_4 /\
  marker_of ca_replacement_3 = marker_of ca_replacement_4 /\
  contains marker_check_disabled analyse_stream_only = false /\
  found ca_pattern_3 NOFLAGS (ca_step_2 (ca_step_1 analyse_stream_only))
    = false /\
  contains marker_check_disabled
    (patch_content_analyser_text analyse_stream_only) = true.
Proof.
  split; [vm_compute; discriminate|].
  split; [vm_compute; reflexivity|].
  split; [vm_compute; reflexivity|].
  split; vm_compute; reflexivity.
Qed.

Lemma marker_new_rule_found (r : rule) (content m : text) :
  contains m (apply_rule r content) = true ->
  contains m content = false ->
  rule_found r content = true.
Proof.
  intros H N. destruct (rule_found r content) eqn:F; [reflexivity|].
  unfold apply_rule in H. rewrite (@not_found_re_sub _ _ _ _ F) in H.
  congruence.
Qed.

(** C8, amended: the replacement text of every rule embeds a marker
    comment that starts with [# PATCHED].  Among the rules of the
    moderation file the markers of the first, the second and the seventh
    are embedded by that rule alone, while the third, fourth, fifth and
    sixth embed one and the same marker, [# PATCHED: NSFW check disabled].
    A marker that is in the text after a rule and was not in it before
    shows that this rule found its pattern. *)
Theorem markers_of_rules :
  forallb (fun repl =>
             match marker_of repl with
             | Some m => starts_with marker_patched m && contains m repl
             | None => false
             end) (ca_replacements ++ core_replacements) = true /\
  embedders marker_models_removed ca_replacements = [1] /\
  embedders marker_pre_check ca_replacements = [2] /\
  embedders marker_check_disabled ca_replacements = [3; 4; 5; 6] /\
  embedders marker_detection_disabled ca_replacements = [7] /\
  map marker_of ca_replacements =
    [ Some marker_models_removed; Some marker_pre_check;
      Some marker_check_disabled; Some marker_check_disabled;
      Some marker_check_disabled; Some marker_check_disabled;
      Some marker_detection_disabled ] /\
  (forall r content m,
     contains m (apply_rule r content) = true ->
     contains m content = false ->
     rule_found r content = true).
Proof.
  split; [vm_compute; reflexivity|].
  split; [vm_compute; reflexivity|].
  split; [vm_compute; reflexivity|].
  split; [vm_compute; reflexivity|].
  split; [vm_compute; reflexivity|].
  split; [vm_compute; reflexivity|].
  exact marker_new_rule_found.
Qed.

Lemma markers_of_rules_witness :
  contains marker_detection_disabled
    (apply_rule (Rule ca_pattern_7 ca_replacement_7 DOTALL) detect_nsfw_only)
    = true /\
  contains marker_detection_disabled detect_nsfw_only = false /\
  rule_found (Rule ca_pattern_7 ca_replacement_7 DOTALL) detect_nsfw_only
    = true.
Proof.
  assert (H : contains marker_detection_disabled
                (apply_rule (Rule ca_pattern_7 ca_replacement_7 DOTALL)
                            detect_nsfw_only) = true)
    by (vm_compute; reflexivity).
  assert (N : contains marker_detection_disabled detect_nsfw_only = false)
    by (vm_compute; reflexivity).
  split; [exact H|]. split; [exact N|].
  destruct markers_of_rules as (_ & _ & _ & _ & _ & _ & A).
  exact (A _ _ _ H N).
Defined.

(** *** Running the rewrite twice (C1) *)

Lemma rule_settled_apply (r : rule) (content : text) :
  rule_settled r content = true -> apply_rule r content = content.
Proof. apply settled_sub. Qed.

Lemma all_settled_fixed (both : text * text) :
  all_settled both = true -> rewrite both = both.
Proof.
  destruct both as [ca core]. unfold all_settled, rewrite. cbn [fst snd].
  intros H. apply andb_true_iff in H. destruct H as [Hca Hcore].
  f_equal.
  - rewrite patch_content_analyser_text_rules.
    cbn [forallb content_analyser_rules] in Hca.
    repeat (apply andb_true_iff in Hca; destruct Hca as [?H Hca]).
    unfold apply_rules, content_analyser_rules. cbn [fold_left].
    rewrite (rule_settled_apply _ _ H), (rule_settled_apply _ _ H0),
      (rule_settled_apply _ _ H1), (rule_settled_apply _ _ H2),
      (rule_settled_apply _ _ H3), (rule_settled_apply _ _ H4).
    apply (rule_settled_apply _ _ H5).
  - rewrite patch_core_text_rules.
    cbn [forallb core_rules] in Hcore.
    repeat (apply andb_true_iff in Hcore; destruct Hcore as [?H Hcore]).
    unfold apply_rules, core_rules. cbn [firstn fold_left].
    rewrite (rule_settled_apply _ _ H), (rule_settled_apply _ _ H0).
    rewrite text_eqb_refl. apply (rule_settled_apply _ _ H1).
Qed.




(** *** The rule for [analyse_frame] (C4) *)


(** The seventh rule can consume the patched definition as well, and its
    replacement carries another marker. *)
Lemma analyse_frame_lost_to_detect_nsfw :
  contains analyse_frame_original analyse_frame_inside_detect_nsfw = true /\
  contains ca_replacement_3
    (ca_step_3 (ca_step_2 (ca_step_1 analyse_frame_inside_detect_nsfw)))
    = true /\
  contains marker_check_disabled
    (patch_content_analyser_text analyse_frame_inside_detect_nsfw) = false.
Proof.
  split; [vm_compute; reflexivity|].
  split; vm_compute; reflexivity.
Qed.






(** ** Further properties of the rules *)

Lemma found_ca_5 content :
  found ca_pattern_5 NOFLAGS content = occurs NOFLAGS ca_classes_5 content.
Proof. apply (search_from_fixed NOFLAGS _ ca_pattern_5_fixed). Qed.

Lemma core_1_stable_3 :
  stable NOFLAGS core_classes_1 core_replacement_3 = true.
Proof. vm_compute. reflexivity. Qed.

Lemma ca_3_stable_4 : stable NOFLAGS ca_classes_3 ca_replacement_4 = true.
Proof. vm_compute. reflexivity. Qed.

Lemma ca_3_stable_5 : stable NOFLAGS ca_classes_3 ca_replacement_5 = true.
Proof. vm_compute. reflexivity. Qed.

Lemma ca_3_stable_6 : stable NOFLAGS ca_classes_3 ca_replacement_6 = true.
Proof. vm_compute. reflexivity. Qed.

Lemma ca_3_stable_7 : stable NOFLAGS ca_classes_3 ca_replacement_7 = true.
Proof. vm_compute. reflexivity. Qed.

Lemma ca_5_stable_6 : stable NOFLAGS ca_classes_5 ca_replacement_6 = true.
Proof. vm_compute. reflexivity. Qed.

Lemma ca_5_stable_7 : stable NOFLAGS ca_classes_5 ca_replacement_7 = true.
Proof. vm_compute. reflexivity. Qed.

(** A substitution of the script, as the foreign pattern [cs] sees it. *)
Lemma re_sub_foreign (cs : list cset) (pattern repl content : text)
  (fl : flags) :
  stable NOFLAGS cs repl = true ->
  occurs NOFLAGS cs content = false ->
  occurs NOFLAGS cs (re_sub pattern repl content fl) = false.
Proof.
  intros S H.
  destruct (occurs NOFLAGS cs (re_sub pattern repl content fl)) eqn:E;
    [|reflexivity].
  unfold re_sub, Re.sub in E.
  apply (foreign_occurs NOFLAGS fl (Re.compile pattern) repl cs) in E.
  - simpl in E. congruence.
  - exact S.
Qed.

(** X1: the second substitution of [patch_core], offered as the more
    robust alternative, never changes the text it receives from the first;
    so the result of [patch_core] is that of the first substitution when
    an eight-digit comparison is in the text, and that of the third
    otherwise. *)
Theorem patch_core_by_cases (original : text) :
  core_step_2 (core_step_1 original) = core_step_1 original /\
  patch_core_text original =
    (if found core_pattern_1 NOFLAGS original
     then core_step_1 original
     else core_step_3 original) /\
  patch_core_attempts original =
    (if found core_pattern_1 NOFLAGS original then [1; 2] else [1; 2; 3]).
Proof.
  split; [apply core_step_2_after_1|].
  unfold patch_core_text, patch_core_attempts.
  destruct (found core_pattern_1 NOFLAGS original) eqn:F.
  - rewrite (patch_core_run_strict _ F). split; reflexivity.
  - rewrite (patch_core_run_loose _ F). split; reflexivity.
Qed.

Lemma accepts_cons_char (c : ascii) (cs : list cset) (s : text) :
  accepts NOFLAGS (CChar c :: cs) (c :: s) = accepts NOFLAGS cs s.
Proof. cbn [accepts cset_mem]. now rewrite Ascii.eqb_refl. Qed.

Lemma accepts_hash_comparison (h : text) :
  List.length h = 8 ->
  forallb lower_hex h = true ->
  accepts NOFLAGS core_classes_1 (hash_comparison h) = true /\
  List.length (hash_comparison h) = List.length core_classes_1.
Proof.
  intros L H.
  do 8 (destruct h as [|? h]; [discriminate L|]).
  destruct h; [|discriminate L].
  cbn [forallb] in H.
  repeat (apply andb_true_iff in H; destruct H as [?H H]).
  split; [|reflexivity].
  change core_classes_1 with
    (map CChar (raw "content_analyser_hash == '") ++
     repeat (CRange [("a"%char, "f"%char); ("0"%char, "9"%char)]) 8 ++
     [CChar "'"%char]).
  unfold hash_comparison, raw.
  cbn [list_ascii_of_string map app repeat].
  rewrite !accepts_cons_char.
  cbn [accepts]. unfold lower_hex in *.
  rewrite H0, H1, H2, H3, H4, H5, H6, H7.
  reflexivity.
Qed.

(** X2: for every literal of eight characters from [a-f0-9],
    [patch_core] replaces the comparison of the hash with that literal
    where it stands, by [True  # PATCHED: Hash check bypassed]; the text
    before it and the text after it are rewritten by the first
    substitution on their own. *)
Theorem hash_comparison_replaced_in_place (h a b : text) :
  List.length h = 8 ->
  forallb lower_hex h = true ->
  patch_core_text (a ++ hash_comparison h ++ b) =
  core_step_1 a ++ core_replacement_1 ++ core_step_1 b.
Proof.
  intros L H. destruct (accepts_hash_comparison h L H) as [A N].
  assert (F : found core_pattern_1 NOFLAGS (a ++ hash_comparison h ++ b)
              = true).
  { rewrite found_core_1.
    apply (@contains_occurs NOFLAGS core_classes_1 _ A).
    apply contains_intro. }
  unfold patch_core_text. rewrite (patch_core_run_strict _ F). cbn [fst].
  now apply core_step_1_around.
Qed.

Lemma hash_comparison_replaced_in_place_witness :
  List.length (raw "0123abcd") = 8 /\
  forallb lower_hex (raw "0123abcd") = true /\
  patch_core_text
    (raw "if " ++ hash_comparison (raw "0123abcd") ++ raw ": pass") =
  raw "if True  # PATCHED: Hash check bypassed: pass".
Proof.
  assert (L : List.length (raw "0123abcd") = 8) by reflexivity.
  assert (H : forallb lower_hex (raw "0123abcd") = true)
    by (vm_compute; reflexivity).
  split; [exact L|]. split; [exact H|].
  rewrite (hash_comparison_replaced_in_place
             (raw "0123abcd") (raw "if ") (raw ": pass") L H).
  vm_compute. reflexivity.
Defined.

Lemma patch_core_clears_strict (original : text) :
  occurs NOFLAGS core_classes_1 (patch_core_text original) = false.
Proof.
  unfold patch_core_text.
  destruct (found core_pattern_1 NOFLAGS original) eqn:F.
  - rewrite (patch_core_run_strict _ F). cbn [fst].
    rewrite <- found_core_1. apply core_step_1_clears.
  - rewrite (patch_core_run_loose _ F). cbn [fst].
    apply (@re_sub_foreign core_classes_1 core_pattern_3 core_replacement_3
             original NOFLAGS core_1_stable_3).
    now rewrite <- found_core_1.
Qed.

(** X3: whatever the text, the result of [patch_core] holds no comparison
    of the hash with a literal of eight characters from [a-f0-9]: the
    first pattern of [patch_core] is found nowhere in it. *)
Theorem patch_core_leaves_no_comparison (original h : text) :
  List.length h = 8 ->
  forallb lower_hex h = true ->
  found core_pattern_1 NOFLAGS (patch_core_text original) = false /\
  contains (hash_comparison h) (patch_core_text original) = false.
Proof.
  intros L H. pose proof (patch_core_clears_strict original) as C.
  split; [now rewrite found_core_1|].
  destruct (contains (hash_comparison h) (patch_core_text original)) eqn:K;
    [|reflexivity].
  destruct (accepts_hash_comparison h L H) as [A _].
  apply (@contains_occurs NOFLAGS core_classes_1 _ A) in K. congruence.
Qed.

Lemma patch_core_leaves_no_comparison_witness :
  List.length (raw "deadbeef") = 8 /\
  forallb lower_hex (raw "deadbeef") = true /\
  contains (hash_comparison (raw "deadbeef")) (patch_core_text core_py)
  = false.
Proof.
  assert (L : List.length (raw "deadbeef") = 8) by reflexivity.
  assert (H : forallb lower_hex (raw "deadbeef") = true)
    by (vm_compute; reflexivity).
  split; [exact L|]. split; [exact H|].
  exact (proj2 (patch_core_leaves_no_comparison core_py (raw "deadbeef")
                  L H)).
Defined.

(** X4: whatever the text, the result of [patch_content_analyser] holds
    neither the original definition of [analyse_frame] nor the original
    definition of [analyse_image]: the third and the fifth rule remove
    every occurrence, and no later rule puts one back. *)
Theorem patch_content_analyser_leaves_no_original (content : text) :
  contains analyse_frame_original (patch_content_analyser_text content)
  = false /\
  contains analyse_image_original (patch_content_analyser_text content)
  = false /\
  found ca_pattern_3 NOFLAGS (patch_content_analyser_text content) = false /\
  found ca_pattern_5 NOFLAGS (patch_content_analyser_text content) = false.
Proof.
  assert (O3 : occurs NOFLAGS ca_classes_3
                 (patch_content_analyser_text content) = false).
  { unfold patch_content_analyser_text, ca_step_7, ca_step_6, ca_step_5,
      ca_step_4. cbv zeta.
    apply (@re_sub_foreign ca_classes_3 ca_pattern_7 ca_replacement_7 _
             DOTALL ca_3_stable_7).
    apply (@re_sub_foreign ca_classes_3 ca_pattern_6 ca_replacement_6 _
             DOTALL ca_3_stable_6).
    apply (@re_sub_foreign ca_classes_3 ca_pattern_5 ca_replacement_5 _
             NOFLAGS ca_3_stable_5).
    apply (@re_sub_foreign ca_classes_3 ca_pattern_4 ca_replacement_4 _
             DOTALL ca_3_stable_4).
    apply (sub_no_occurrence _ _ _ ca_pattern_3_fixed ca_rule_3_stable). }
  assert (O5 : occurs NOFLAGS ca_classes_5
                 (patch_content_analyser_text content) = false).
  { unfold patch_content_analyser_text, ca_step_7, ca_step_6. cbv zeta.
    apply (@re_sub_foreign ca_classes_5 ca_pattern_7 ca_replacement_7 _
             DOTALL ca_5_stable_7).
    apply (@re_sub_foreign ca_classes_5 ca_pattern_6 ca_replacement_6 _
             DOTALL ca_5_stable_6).
    apply (sub_no_occurrence _ _ _ ca_pattern_5_fixed ca_rule_5_stable). }
  split; [|split; [|split; [now rewrite found_ca_3|now rewrite found_ca_5]]].
  - destruct (contains analyse_frame_original
                (patch_content_analyser_text content)) eqn:K; [|reflexivity].
    apply (@contains_occurs NOFLAGS ca_classes_3 analyse_frame_original)
      in K; [congruence|vm_compute; reflexivity].
  - destruct (contains analyse_image_original
                (patch_content_analyser_text content)) eqn:K; [|reflexivity].
    apply (@contains_occurs NOFLAGS ca_classes_5 analyse_image_original)
      in K; [congruence|vm_compute; reflexivity].
Qed.

Lemma apply_rules_marker (m : text) (rs : list rule) (original : text) :
  forallb (fun r => contains m (rule_replacement r)) rs = true ->
  forall x,
    x = original \/ contains m x = true ->
    apply_rules rs x = original \/ contains m (apply_rules rs x) = true.
Proof.
  induction rs as [|r rs IH]; intros H x I; [exact I|].
  cbn [forallb] in H. apply andb_true_iff in H. destruct H as [Hr H].
  unfold apply_rules. cbn [fold_left]. apply (IH H).
  destruct (re_sub_same_or_repl (rule_pattern r) (rule_replacement r) x
              (rule_flags r)) as [E|(a & b & E)];
    unfold apply_rule; rewrite E.
  - exact I.
  - right. now apply contains_repl_marker.
Qed.

Lemma apply_rules_keep_marker (m : text) (rs : list rule) :
  forallb (fun r => contains m (rule_replacement r)) rs = true ->
  forall x, contains m x = true -> contains m (apply_rules rs x) = true.
Proof.
  intros H x I.
  destruct (@apply_rules_marker m rs x H x (or_intror I)) as [E|E];
    [now rewrite E|exact E].
Qed.

Lemma ca_rules_marked :
  forallb (fun r => contains marker_patched (rule_replacement r))
          content_analyser_rules = true.
Proof. vm_compute. reflexivity. Qed.

Lemma core_rules_marked :
  forallb (fun r => contains marker_patched (rule_replacement r))
          core_rules = true.
Proof. vm_compute. reflexivity. Qed.

Lemma patch_core_keeps_marker (original : text) :
  contains marker_patched original = true ->
  contains marker_patched (patch_core_text original) = true.
Proof.
  intros H. rewrite patch_core_text_rules.
  destruct (text_eqb (apply_rules (firstn 2 core_rules) original) original).
  - now apply apply_rules_keep_marker; [apply core_rules_marked|].
  - now apply apply_rules_keep_marker; [vm_compute; reflexivity|].
Qed.

(** X5: the text a patch function ends with holds [# PATCHED] exactly
    when the function changed the text or the text held it before; so
    every file the script writes back holds the marker, and a marker
    that was there is never lost. *)
Theorem patched_marker_iff (original : text) :
  (contains marker_patched (patch_content_analyser_text original) = true <->
   patch_content_analyser_text original <> original \/
   contains marker_patched original = true) /\
  (contains marker_patched (patch_core_text original) = true <->
   patch_core_text original <> original \/
   contains marker_patched original = true).
Proof.
  split; split.
  - intros H.
    destruct (text_eq_dec (patch_content_analyser_text original) original)
      as [E|E]; [right; now rewrite E in H|now left].
  - intros [N|H].
    + rewrite patch_content_analyser_text_rules in *.
      destruct (@apply_rules_marker marker_patched content_analyser_rules
                  original ca_rules_marked original (or_introl eq_refl))
        as [E|E]; [contradiction|exact E].
    + rewrite patch_content_analyser_text_rules.
      now apply apply_rules_keep_marker; [apply ca_rules_marked|].
  - intros H.
    destruct (text_eq_dec (patch_core_text original) original)
      as [E|E]; [right; now rewrite E in H|now left].
  - intros [N|H].
    + now apply patch_core_changed_marked.
    + now apply patch_core_keeps_marker.
Qed.

(** ** Further properties of the runs *)

Section Confined.

Variable P : path -> Prop.

Lemma confined_ret {A} (a : A) : confined P (ret a).
Proof.
  intros w. cbn. split; [reflexivity|]. split; [|discriminate].
  exists []. split; [now rewrite app_nil_r|contradiction].
Qed.

Lemma confined_raise {A} (e : exn) :
  (forall n, e = SystemExit n -> n = 1) -> confined P (@raise A e).
Proof.
  intros H w. cbn. split; [reflexivity|]. split.
  - exists []. split; [now rewrite app_nil_r|contradiction].
  - intros n E. injection E as E. now apply H.
Qed.

Lemma confined_print (m : message) : confined P (print m).
Proof.
  intros w. cbn. split; [reflexivity|]. split; [|discriminate].
  exists []. split; [now rewrite app_nil_r|contradiction].
Qed.

Lemma confined_bind {A B} (m : M A) (f : A -> M B) :
  confined P m -> (forall a, confined P (f a)) -> confined P (bind m f).
Proof.
  intros Hm Hf w. unfold bind.
  destruct (Hm w) as (D1 & (os1 & O1 & W1) & X1).
  destruct (m w) as [[a|e] w1]; cbn [fst snd] in *.
  - destruct (Hf a w1) as (D2 & (os2 & O2 & W2) & X2).
    split; [|split].
    + intros q N. now rewrite (D2 q N), (D1 q N).
    + exists (os1 ++ os2). split.
      * now rewrite O2, O1, app_assoc.
      * intros p c I. apply in_app_or in I. destruct I as [I|I];
          [exact (W1 _ _ I)|exact (W2 _ _ I)].
    + exact X2.
  - split; [exact D1|]. split.
    + exists os1. split; assumption.
    + intros n E. injection E as E. apply (X1 n). now rewrite E.
Qed.

Lemma confined_exists (p : path) : confined P (exists_ p).
Proof.
  intros w. cbn. split; [reflexivity|]. split; [|discriminate].
  exists [OpExists p]. split; [reflexivity|].
  intros q c [I|[]]. discriminate.
Qed.

Lemma confined_read_text (p : path) : confined P (read_text p).
Proof.
  intros w. unfold read_text, bind, log. cbn [disk ops console].
  assert (W : exists os,
             ops w ++ [OpRead p] = ops w ++ os /\
             forall q c, In (OpWrite q c) os -> P q).
  { exists [OpRead p]. split; [reflexivity|].
    intros q c [I|[]]. discriminate. }
  destruct (disk w p) as [[content|]|]; cbn [fst snd disk ops];
    (split; [reflexivity|]); (split; [exact W|]);
    intros n E; discriminate.
Qed.

Lemma confined_write_text (p : path) (content : text) :
  P p -> confined P (write_text p content).
Proof.
  intros Hp w. unfold write_text, bind, log. cbn [disk ops console].
  assert (W : exists os,
             ops w ++ [OpWrite p content] = ops w ++ os /\
             forall q c, In (OpWrite q c) os -> P q).
  { exists [OpWrite p content]. split; [reflexivity|].
    intros q c [I|[]]. injection I as <- _. exact Hp. }
  destruct (disk w p) as [[old|]|]; cbn [fst snd disk ops];
    (split; [|split; [exact W|intros n E; discriminate]]);
    try reflexivity;
    intros q N; unfold update;
    destruct (path_eq_dec q p) as [->|_]; try reflexivity;
    contradiction.
Qed.

Lemma confined_report_checks (cs : list (string * bool)) :
  forall success, confined P (report_checks cs success).
Proof.
  induction cs as [|[label passed] cs IH]; intros success.
  - apply confined_ret.
  - cbn [report_checks]. destruct passed;
      (apply confined_bind; [apply confined_print|intros _; apply IH]).
Qed.

Lemma confined_verify_patches (source_dir : path) :
  confined P (verify_patches source_dir).
Proof.
  unfold verify_patches.
  apply confined_bind; [apply confined_exists|intros present1].
  apply confined_bind.
  { destruct present1; [|apply confined_ret].
    apply confined_bind; [apply confined_read_text|intros content].
    apply confined_report_checks. }
  intros success1.
  apply confined_bind; [apply confined_exists|intros present2].
  apply confined_bind; [|intros success2; apply confined_ret].
  destruct present2; [|apply confined_ret].
  apply confined_bind; [apply confined_read_text|intros content].
  destruct (contains marker_patched content);
    (apply confined_bind; [apply confined_print|intros _; apply confined_ret]).
Qed.

Lemma confined_patch_content_analyser (p : path) :
  P p -> confined P (patch_content_analyser p).
Proof.
  intros Hp. unfold patch_content_analyser.
  apply confined_bind; [apply confined_read_text|intros content].
  cbv zeta.
  destruct (text_eqb (patch_content_analyser_text content) content).
  - apply confined_bind; [apply confined_print|intros _; apply confined_print].
  - apply confined_bind; [now apply confined_write_text|].
    intros _. apply confined_print.
Qed.

Lemma confined_patch_core (p : path) :
  P p -> confined P (patch_core p).
Proof.
  intros Hp. unfold patch_core.
  apply confined_bind; [apply confined_read_text|intros content].
  cbv zeta.
  destruct (text_eqb (patch_core_text content) content).
  - apply confined_bind; [apply confined_print|intros _; apply confined_print].
  - apply confined_bind; [now apply confined_write_text|].
    intros _. apply confined_print.
Qed.

End Confined.

Lemma exit_one (n : nat) : SystemExit 1 = SystemExit n -> n = 1.
Proof. now intros [= <-]. Qed.

Lemma confined_main (argv : list string) :
  confined (targets (Path (nth 1 argv EmptyString))) (main argv).
Proof.
  unfold main.
  apply confined_bind.
  { destruct (Nat.eqb (List.length argv) 2); [apply confined_ret|].
    destruct argv as [|prog rest].
    - apply confined_raise. discriminate.
    - apply confined_bind; [apply confined_print|intros _].
      apply confined_raise, exit_one. }
  intros _. cbv zeta.
  apply confined_bind; [apply confined_exists|intros present0].
  apply confined_bind.
  { destruct present0; [apply confined_ret|].
    apply confined_bind; [apply confined_print|intros _].
    apply confined_raise, exit_one. }
  intros _.
  apply confined_bind; [apply confined_print|intros _].
  apply confined_bind; [apply confined_exists|intros present1].
  apply confined_bind.
  { destruct present1; [apply confined_ret|].
    apply confined_bind; [apply confined_print|intros _].
    apply confined_raise, exit_one. }
  intros _.
  apply confined_bind; [apply confined_exists|intros present2].
  apply confined_bind.
  { destruct present2; [apply confined_ret|].
    apply confined_bind; [apply confined_print|intros _].
    apply confined_raise, exit_one. }
  intros _.
  apply confined_bind; [apply confined_print|intros _].
  apply confined_bind;
    [apply confined_patch_content_analyser; now left|intros _].
  apply confined_bind; [apply confined_patch_core; now right|intros _].
  apply confined_bind; [apply confined_print|intros _].
  apply confined_bind; [apply confined_verify_patches|intros ok].
  destruct ok; [apply confined_print|].
  apply confined_bind; [apply confined_print|intros _].
  apply confined_raise, exit_one.
Qed.

(** X6: whatever its arguments and whatever is on disk, [main] leaves
    every path other than the two target files as it was, attempts no
    write to any other path, and ends with status 0 or 1; the same holds
    when it ends with an uncaught exception. *)
Theorem main_confined_to_targets (argv : list string) (w : world) :
  (forall q,
     q <> content_analyser_path (Path (nth 1 argv EmptyString)) ->
     q <> core_path (Path (nth 1 argv EmptyString)) ->
     disk (snd (main argv w)) q = disk w q) /\
  (forall p c,
     In (OpWrite p c) (new_ops w (snd (main argv w))) ->
     p = content_analyser_path (Path (nth 1 argv EmptyString)) \/
     p = core_path (Path (nth 1 argv EmptyString))) /\
  (exit_status (fst (main argv w)) = 0 \/
   exit_status (fst (main argv w)) = 1).
Proof.
  destruct (confined_main argv w) as (D & (os & O & W) & X).
  split; [|split].
  - intros q N1 N2. apply D. intros [E|E]; contradiction.
  - intros p c I. unfold new_ops in I.
    rewrite O, skipn_length_app in I. exact (W p c I).
  - destruct (fst (main argv w)) as [u|e]; [now left|right].
    destruct e; try reflexivity. simpl. now apply X.
Qed.

Lemma main_confined_to_targets_witness :
  [ "checkout"%string ] <>
    content_analyser_path
      (Path (nth 1 ["patch-facefusion.py"%string; "checkout"%string]
                 EmptyString)) /\
  [ "checkout"%string ] <>
    core_path
      (Path (nth 1 ["patch-facefusion.py"%string; "checkout"%string]
                 EmptyString)) /\
  disk (snd (main ["patch-facefusion.py"%string; "checkout"%string]
               upstream)) [ "checkout"%string ] =
  disk upstream [ "checkout"%string ].
Proof.
  assert (N1 : [ "checkout"%string ] <>
               content_analyser_path
                 (Path (nth 1 ["patch-facefusion.py"%string;
                               "checkout"%string] EmptyString)))
    by discriminate.
  assert (N2 : [ "checkout"%string ] <>
               core_path
                 (Path (nth 1 ["patch-facefusion.py"%string;
                               "checkout"%string] EmptyString)))
    by discriminate.
  split; [exact N1|]. split; [exact N2|].
  exact (proj1 (main_confined_to_targets
                  ["patch-facefusion.py"%string; "checkout"%string]
                  upstream) _ N1 N2).
Defined.

Lemma patch_content_analyser_patched (p : path) (original : text)
  (w : world) :
  disk w p = Some (File original) ->
  patch_content_analyser p w =
  (Ok tt, patched_world patch_content_analyser_text p original w).
Proof. exact (@patch_content_analyser_run p original w). Qed.

Lemma patch_core_patched (p : path) (original : text) (w : world) :
  disk w p = Some (File original) ->
  patch_core p w = (Ok tt, patched_world patch_core_text p original w).
Proof. exact (@patch_core_world p original w). Qed.

Lemma patched_world_disk_self (f : text -> text) (p : path)
  (original : text) (w : world) :
  disk w p = Some (File original) ->
  disk (patched_world f p original w) p = Some (File (f original)).
Proof.
  intros H. unfold patched_world.
  destruct (text_eqb (f original) original) eqn:E; cbn [disk].
  - apply text_eqb_true in E. now rewrite E.
  - apply update_same.
Qed.

Lemma patched_world_disk_other (f : text -> text) (p q : path)
  (original : text) (w : world) :
  q <> p -> disk (patched_world f p original w) q = disk w q.
Proof.
  intros N. unfold patched_world.
  destruct (text_eqb (f original) original); cbn [disk];
    [reflexivity|now apply update_other].
Qed.

Lemma patched_world_ops (f : text -> text) (p : path) (original : text)
  (w : world) :
  ops (patched_world f p original w) = ops w ++ patch_ops f p original.
Proof.
  unfold patched_world, patch_ops.
  destruct (text_eqb (f original) original); reflexivity.
Qed.

Lemma patched_world_fixed (f : text -> text) (p : path) (original : text)
  (w : world) :
  f original = original ->
  disk (patched_world f p original w) = disk w /\
  ops (patched_world f p original w) = ops w ++ [OpRead p].
Proof.
  intros E. unfold patched_world.
  apply text_eqb_true in E. rewrite E. split; reflexivity.
Qed.

Lemma source_dir_not_target (dir : string) :
  Path dir <> content_analyser_path (Path dir) /\
  Path dir <> core_path (Path dir).
Proof. split; discriminate. Qed.

(** A patch function on a path that holds no regular file. *)
Lemma patch_content_analyser_no_file (p : path) (w : world) :
  (disk w p = Some Dir ->
   patch_content_analyser p w =
   (Raise (IsADirectoryError p),
    World (disk w) (ops w ++ [OpRead p]) (console w))) /\
  (disk w p = None ->
   patch_content_analyser p w =
   (Raise (FileNotFoundError p),
    World (disk w) (ops w ++ [OpRead p]) (console w))).
Proof.
  split; intros H; unfold patch_content_analyser;
    cbv beta iota delta [bind log read_text]; cbn [disk ops console];
    now rewrite H.
Qed.

Lemma patch_core_no_file (p : path) (w : world) :
  (disk w p = Some Dir ->
   patch_core p w =
   (Raise (IsADirectoryError p),
    World (disk w) (ops w ++ [OpRead p]) (console w))) /\
  (disk w p = None ->
   patch_core p w =
   (Raise (FileNotFoundError p),
    World (disk w) (ops w ++ [OpRead p]) (console w))).
Proof.
  split; intros H; unfold patch_core;
    cbv beta iota delta [bind log read_text]; cbn [disk ops console];
    now rewrite H.
Qed.

(** [main] up to the call of [patch_content_analyser], when the three
    existence checks pass. *)
Lemma main_checked (prog dir : string) (w : world) (e0 e1 e2 : entry) :
  disk w (Path dir) = Some e0 ->
  disk w (content_analyser_path (Path dir)) = Some e1 ->
  disk w (core_path (Path dir)) = Some e2 ->
  main [prog; dir] w =
  bind (patch_content_analyser (content_analyser_path (Path dir)))
       (fun _ =>
          bind (patch_core (core_path (Path dir)))
               (fun _ =>
                  bind (print MsgVerifying)
                       (fun _ =>
                          bind (verify_patches (Path dir))
                               (fun ok =>
                                  if ok then print MsgAllApplied
                                  else bind (print MsgSomeFailed)
                                         (fun _ => raise (SystemExit 1))))))
       (checked_world dir w).
Proof.
  intros H0 H1 H2. unfold main, checked_world.
  cbn [nth List.length Nat.eqb].
  unfold bind at 1. unfold ret at 1. cbv beta iota.
  unfold bind at 1. unfold exists_ at 1.
  unfold bind at 1. unfold log at 1. cbv beta iota. cbn [disk ops console].
  rewrite H0. cbv beta iota.
  unfold bind at 1. unfold ret at 1. cbv beta iota.
  unfold bind at 1. unfold print at 1. cbv beta iota. cbn [disk ops console].
  unfold bind at 1. unfold exists_ at 1.
  unfold bind at 1. unfold log at 1. cbv beta iota. cbn [disk ops console].
  rewrite H1. cbv beta iota.
  unfold bind at 1. unfold ret at 1. cbv beta iota.
  unfold bind at 1. unfold exists_ at 1.
  unfold bind at 1. unfold log at 1. cbv beta iota. cbn [disk ops console].
  rewrite H2. cbv beta iota.
  unfold bind at 1. unfold ret at 1. cbv beta iota.
  unfold bind at 1. unfold print at 1. cbv beta iota. cbn [disk ops console].
  rewrite <- !app_assoc. reflexivity.
Qed.

Lemma main_complete_run (prog dir : string) (w : world) (e0 : entry)
  (ca core : text) :
  disk w (Path dir) = Some e0 ->
  disk w (content_analyser_path (Path dir)) = Some (File ca) ->
  disk w (core_path (Path dir)) = Some (File core) ->
  main [prog; dir] w =
  verdict (verify_patches (Path dir) (patched_both dir ca core w)).
Proof.
  intros H0 H1 H2. rewrite (main_checked prog dir w H0 H1 H2).
  unfold bind at 1.
  rewrite (@patch_content_analyser_patched _ ca (checked_world dir w) H1).
  unfold bind at 1.
  rewrite (@patch_core_patched _ core
             (patched_world patch_content_analyser_text
                (content_analyser_path (Path dir)) ca (checked_world dir w))).
  2:{ rewrite patched_world_disk_other; [exact H2|].
      intros E. symmetry in E.
      now apply core_path_not_content_analyser in E. }
  unfold bind at 1. unfold print at 1. cbv beta iota.
  fold (patched_both dir ca core w).
  unfold bind at 1.
  destruct (verify_patches (Path dir) (patched_both dir ca core w))
    as [[[|]|e] w3]; reflexivity.
Qed.

Lemma patched_both_disk (dir : string) (ca core : text) (w : world) :
  disk w (content_analyser_path (Path dir)) = Some (File ca) ->
  disk w (core_path (Path dir)) = Some (File core) ->
  disk (patched_both dir ca core w) (content_analyser_path (Path dir)) =
    Some (File (patch_content_analyser_text ca)) /\
  disk (patched_both dir ca core w) (core_path (Path dir)) =
    Some (File (patch_core_text core)) /\
  (forall q,
     q <> content_analyser_path (Path dir) ->
     q <> core_path (Path dir) ->
     disk (patched_both dir ca core w) q = disk w q) /\
  ops (patched_both dir ca core w) =
    ops w ++
    [OpExists (Path dir); OpExists (content_analyser_path (Path dir));
     OpExists (core_path (Path dir))] ++
    patch_ops patch_content_analyser_text
      (content_analyser_path (Path dir)) ca ++
    patch_ops patch_core_text (core_path (Path dir)) core.
Proof.
  intros H1 H2. unfold patched_both. cbv zeta. cbn [disk ops].
  assert (N : core_path (Path dir) <> content_analyser_path (Path dir)).
  { intros E. symmetry in E. now apply core_path_not_content_analyser in E. }
  split; [|split; [|split]].
  - rewrite patched_world_disk_other
      by apply core_path_not_content_analyser.
    now apply patched_world_disk_self.
  - apply patched_world_disk_self.
    now rewrite patched_world_disk_other.
  - intros q N1 N2. now rewrite !patched_world_disk_other.
  - rewrite !patched_world_ops. unfold checked_world. cbn [ops].
    now rewrite <- !app_assoc.
Qed.

(** The markers [verify_patches] wants in the two patched texts. *)
Lemma verified_patched_both (dir : string) (ca core : text) (w : world) :
  disk w (content_analyser_path (Path dir)) = Some (File ca) ->
  disk w (core_path (Path dir)) = Some (File core) ->
  fst (verify_patches (Path dir) (patched_both dir ca core w)) =
  Ok (forallb (fun m => contains m (patch_content_analyser_text ca))
        [marker_models_removed; marker_pre_check; marker_check_disabled] &&
      contains marker_patched (patch_core_text core)).
Proof.
  intros H1 H2.
  destruct (verify_patches_run (Path dir) (patched_both dir ca core w))
    as (R & _).
  destruct (patched_both_disk dir w H1 H2) as (D1 & D2 & _).
  rewrite R. unfold verified. rewrite D1, D2.
  now rewrite all_found_checks.
Qed.

Lemma verdict_facts (r : result bool * world) :
  (forall n, fst r = Raise (SystemExit n) -> n = 1) ->
  disk (snd (verdict r)) = disk (snd r) /\
  ops (snd (verdict r)) = ops (snd r) /\
  (exit_status (fst (verdict r)) = 0 <-> fst r = Ok true).
Proof.
  intros X. destruct r as [[[|]|e] w]; cbn in *;
    (split; [reflexivity|split; [reflexivity|split]]);
    intros H; try discriminate; try reflexivity.
  destruct e; try discriminate. subst code.
  now specialize (X 0 eq_refl).
Qed.

Lemma verify_patches_ops_files (d : path) (w : world) (c1 c2 : text) :
  disk w (content_analyser_path d) = Some (File c1) ->
  disk w (core_path d) = Some (File c2) ->
  ops (snd (verify_patches d w)) =
  ops w ++ [OpExists (content_analyser_path d);
            OpRead (content_analyser_path d);
            OpExists (core_path d); OpRead (core_path d)].
Proof.
  intros E1 E2. unfold verify_patches.
  cbv beta iota zeta delta [bind ret raise print log exists_ read_text].
  cbn [disk ops console].
  repeat (rewrite ?E1, ?E2, ?report_checks_run;
          cbn [disk ops console fst snd]; cbv beta iota).
  destruct (contains marker_patched c2); cbn [disk ops console fst snd];
    now rewrite <- !app_assoc.
Qed.

Lemma verdict_fst (r r' : result bool * world) :
  fst r = fst r' -> fst (verdict r) = fst (verdict r').
Proof.
  destruct r as [[[|]|e] w], r' as [[[|]|e'] w']; cbn; intros E;
    try discriminate; try reflexivity.
  now injection E as ->.
Qed.

Lemma verdict_ok (b : bool) (w : world) :
  fst (verdict (Ok b, w)) = if b then Ok tt else Raise (SystemExit 1).
Proof. now destruct b. Qed.

(** X7: on a checkout where the source directory exists and both targets
    are regular files, [main] leaves on disk the text each patch function
    computed, whether verification then succeeds or not (a failed run
    undoes nothing); it reads each target, writes it only when its text
    changed, and reads both again from disk for verification; and it
    returns normally exactly when the three markers are in the patched
    moderation text and [# PATCHED] is in the patched integrity text,
    ending with [sys.exit(1)] otherwise. *)
Theorem main_on_complete_checkout (prog dir : string) (w : world)
  (e0 : entry) (ca core : text) :
  disk w (Path dir) = Some e0 ->
  disk w (content_analyser_path (Path dir)) = Some (File ca) ->
  disk w (core_path (Path dir)) = Some (File core) ->
  disk (snd (main [prog; dir] w)) (content_analyser_path (Path dir)) =
    Some (File (patch_content_analyser_text ca)) /\
  disk (snd (main [prog; dir] w)) (core_path (Path dir)) =
    Some (File (patch_core_text core)) /\
  new_ops w (snd (main [prog; dir] w)) =
    [OpExists (Path dir); OpExists (content_analyser_path (Path dir));
     OpExists (core_path (Path dir))] ++
    patch_ops patch_content_analyser_text
      (content_analyser_path (Path dir)) ca ++
    patch_ops patch_core_text (core_path (Path dir)) core ++
    [OpExists (content_analyser_path (Path dir));
     OpRead (content_analyser_path (Path dir));
     OpExists (core_path (Path dir)); OpRead (core_path (Path dir))] /\
  fst (main [prog; dir] w) =
    (if forallb (fun m => contains m (patch_content_analyser_text ca))
          [marker_models_removed; marker_pre_check; marker_check_disabled]
        && contains marker_patched (patch_core_text core)
     then Ok tt else Raise (SystemExit 1)).
Proof.
  intros H0 H1 H2. rewrite (main_complete_run prog dir w H0 H1 H2).
  destruct (patched_both_disk dir w H1 H2) as (D1 & D2 & _ & O).
  pose proof (verified_patched_both dir w H1 H2) as V.
  destruct (verify_patches_run (Path dir) (patched_both dir ca core w))
    as (_ & D & _).
  pose proof (verify_patches_ops_files (Path dir)
                (patched_both dir ca core w) D1 D2) as OV.
  destruct (verify_patches (Path dir) (patched_both dir ca core w))
    as [r w3] eqn:E.
  cbn [fst snd] in *. subst r.
  assert (DV : disk (snd (verdict
                 (Ok (forallb
                        (fun m => contains m (patch_content_analyser_text ca))
                        [marker_models_removed; marker_pre_check;
                         marker_check_disabled] &&
                      contains marker_patched (patch_core_text core)), w3)))
               = disk w3 /\
               ops (snd (verdict
                 (Ok (forallb
                        (fun m => contains m (patch_content_analyser_text ca))
                        [marker_models_removed; marker_pre_check;
                         marker_check_disabled] &&
                      contains marker_patched (patch_core_text core)), w3)))
               = ops w3).
  { destruct (forallb _ _ && _); split; reflexivity. }
  destruct DV as [DV OW].
  split; [now rewrite DV, D|]. split; [now rewrite DV, D|].
  split; [|apply verdict_ok].
  unfold new_ops. rewrite OW, OV, O, <- !app_assoc.
  now rewrite skipn_length_app.
Qed.

Lemma main_on_complete_checkout_witness :
  disk upstream (Path "checkout") = Some Dir /\
  disk upstream (content_analyser_path (Path "checkout")) =
    Some (File content_analyser_py) /\
  disk upstream (core_path (Path "checkout")) = Some (File core_py) /\
  fst (main ["patch-facefusion.py"%string; "checkout"%string] upstream)
  = Ok tt.
Proof.
  assert (H0 : disk upstream (Path "checkout") = Some Dir) by reflexivity.
  assert (H1 : disk upstream (content_analyser_path (Path "checkout")) =
               Some (File content_analyser_py)) by reflexivity.
  assert (H2 : disk upstream (core_path (Path "checkout")) =
               Some (File core_py)) by reflexivity.
  split; [exact H0|]. split; [exact H1|]. split; [exact H2|].
  destruct (main_on_complete_checkout "patch-facefusion.py" "checkout"
              upstream H0 H1 H2) as (_ & _ & _ & A).
  rewrite A. vm_compute. reflexivity.
Defined.

Lemma main_directory_first (prog dir : string) (w : world) (e0 e2 : entry) :
  disk w (Path dir) = Some e0 ->
  disk w (content_analyser_path (Path dir)) = Some Dir ->
  disk w (core_path (Path dir)) = Some e2 ->
  main [prog; dir] w =
  (Raise (IsADirectoryError (content_analyser_path (Path dir))),
   World (disk w)
         (ops (checked_world dir w) ++
          [OpRead (content_analyser_path (Path dir))])
         (console (checked_world dir w))).
Proof.
  intros H0 H1 H2. rewrite (main_checked prog dir w H0 H1 H2).
  unfold bind at 1.
  now rewrite (proj1 (patch_content_analyser_no_file
                        (content_analyser_path (Path dir))
                        (checked_world dir w)) H1).
Qed.

Lemma main_directory_second (prog dir : string) (w : world) (e0 : entry)
  (ca : text) :
  disk w (Path dir) = Some e0 ->
  disk w (content_analyser_path (Path dir)) = Some (File ca) ->
  disk w (core_path (Path dir)) = Some Dir ->
  main [prog; dir] w =
  (Raise (IsADirectoryError (core_path (Path dir))),
   World (disk (patched_world patch_content_analyser_text
                  (content_analyser_path (Path dir)) ca
                  (checked_world dir w)))
         (ops (patched_world patch_content_analyser_text
                 (content_analyser_path (Path dir)) ca
                 (checked_world dir w)) ++
          [OpRead (core_path (Path dir))])
         (console (patched_world patch_content_analyser_text
                     (content_analyser_path (Path dir)) ca
                     (checked_world dir w)))).
Proof.
  intros H0 H1 H2. rewrite (main_checked prog dir w H0 H1 H2).
  unfold bind at 1.
  rewrite (@patch_content_analyser_patched _ ca (checked_world dir w) H1).
  unfold bind at 1.
  rewrite (proj1 (patch_core_no_file (core_path (Path dir))
                    (patched_world patch_content_analyser_text
                       (content_analyser_path (Path dir)) ca
                       (checked_world dir w)))); [reflexivity|].
  rewrite patched_world_disk_other; [exact H2|].
  intros E. symmetry in E. now apply core_path_not_content_analyser in E.
Qed.

(** X8: when a target path exists but is a directory, the existence
    checks of [main] pass and the run ends with an uncaught
    [IsADirectoryError], status 1.  With the moderation file a directory
    nothing is written.  With the integrity file a directory the
    moderation file has been patched and written before the error, and
    stays so. *)
Theorem main_with_directory_target (prog dir : string) (w : world)
  (e0 : entry) :
  disk w (Path dir) = Some e0 ->
  (forall e2,
     disk w (content_analyser_path (Path dir)) = Some Dir ->
     disk w (core_path (Path dir)) = Some e2 ->
     fst (main [prog; dir] w) =
       Raise (IsADirectoryError (content_analyser_path (Path dir))) /\
     exit_status (fst (main [prog; dir] w)) = 1 /\
     disk (snd (main [prog; dir] w)) = disk w /\
     wrote w (snd (main [prog; dir] w)) = false) /\
  (forall ca,
     disk w (content_analyser_path (Path dir)) = Some (File ca) ->
     disk w (core_path (Path dir)) = Some Dir ->
     fst (main [prog; dir] w) =
       Raise (IsADirectoryError (core_path (Path dir))) /\
     exit_status (fst (main [prog; dir] w)) = 1 /\
     disk (snd (main [prog; dir] w)) (content_analyser_path (Path dir)) =
       Some (File (patch_content_analyser_text ca)) /\
     (wrote w (snd (main [prog; dir] w)) = true <->
      patch_content_analyser_text ca <> ca)).
Proof.
  intros H0. split.
  - intros e2 H1 H2. rewrite (main_directory_first prog dir w H0 H1 H2).
    cbn [fst snd disk]. repeat split.
    unfold wrote, new_ops, checked_world. cbn [ops].
    now rewrite <- app_assoc, skipn_length_app.
  - intros ca H1 H2. rewrite (main_directory_second prog dir w H0 H1 H2).
    cbn [fst snd disk ops]. split; [reflexivity|]. split; [reflexivity|].
    split.
    + apply patched_world_disk_self. exact H1.
    + unfold wrote, new_ops. rewrite patched_world_ops.
      unfold checked_world, patch_ops. cbn [ops].
      rewrite <- !app_assoc, skipn_length_app.
      destruct (text_eqb (patch_content_analyser_text ca) ca) eqn:E.
      * apply text_eqb_true in E. cbn. split; [discriminate|contradiction].
      * apply text_eqb_false in E. cbn. split; [intros _; exact E|reflexivity].
Qed.

Lemma main_with_directory_target_witness :
  disk (fresh (checkout (Some (File content_analyser_py)) (Some Dir)))
       (Path "checkout") = Some Dir /\
  disk (fresh (checkout (Some (File content_analyser_py)) (Some Dir)))
       (content_analyser_path (Path "checkout")) =
    Some (File content_analyser_py) /\
  disk (fresh (checkout (Some (File content_analyser_py)) (Some Dir)))
       (core_path (Path "checkout")) = Some Dir /\
  disk (snd (main ["patch-facefusion.py"%string; "checkout"%string]
               (fresh (checkout (Some (File content_analyser_py))
                                (Some Dir)))))
       (content_analyser_path (Path "checkout")) =
    Some (File (patch_content_analyser_text content_analyser_py)).
Proof.
  assert (H0 : disk (fresh (checkout (Some (File content_analyser_py))
                                     (Some Dir)))
                    (Path "checkout") = Some Dir) by reflexivity.
  assert (H1 : disk (fresh (checkout (Some (File content_analyser_py))
                                     (Some Dir)))
                    (content_analyser_path (Path "checkout")) =
               Some (File content_analyser_py)) by reflexivity.
  assert (H2 : disk (fresh (checkout (Some (File content_analyser_py))
                                     (Some Dir)))
                    (core_path (Path "checkout")) = Some Dir) by reflexivity.
  split; [exact H0|]. split; [exact H1|]. split; [exact H2|].
  destruct (main_with_directory_target "patch-facefusion.py" "checkout"
              (fresh (checkout (Some (File content_analyser_py)) (Some Dir)))
              H0) as [_ B].
  destruct (B content_analyser_py H1 H2) as (_ & _ & A & _).
  exact A.
Defined.

Lemma exit_status_raise_not_zero {A} (e : exn) :
  (forall n, e = SystemExit n -> n = 1) ->
  exit_status (@Raise A e) <> 0.
Proof.
  intros X. destruct e; cbn; try discriminate.
  rewrite (X code eq_refl). discriminate.
Qed.

(** X9: [main] ends with status 0 exactly when [sys.argv] holds the
    program name and one argument, the source directory exists, both
    target paths hold regular files, the text [patch_content_analyser]
    computes holds the three markers and the text [patch_core] computes
    holds [# PATCHED]. *)
Theorem main_exit_zero_iff (argv : list string) (w : world) :
  exit_status (fst (main argv w)) = 0 <->
  exists prog dir ca core,
    argv = [prog; dir] /\
    disk w (Path dir) <> None /\
    disk w (content_analyser_path (Path dir)) = Some (File ca) /\
    disk w (core_path (Path dir)) = Some (File core) /\
    forallb (fun m => contains m (patch_content_analyser_text ca))
      [marker_models_removed; marker_pre_check; marker_check_disabled]
    = true /\
    contains marker_patched (patch_core_text core) = true.
Proof.
  split.
  - intros Z.
    destruct argv as [|prog [|dir [|extra rest]]];
      try (exfalso; revert Z; cbn; discriminate).
    destruct (disk w (Path dir)) as [e0|] eqn:H0.
    2:{ exfalso. revert Z. unfold main. cbn [nth List.length Nat.eqb].
        cbv beta iota zeta delta [bind ret raise print log exists_].
        cbn [disk ops console]. rewrite H0. cbn. discriminate. }
    destruct (disk w (content_analyser_path (Path dir))) as [e1|] eqn:H1.
    2:{ exfalso. revert Z. unfold main. cbn [nth List.length Nat.eqb].
        cbv beta iota zeta delta [bind ret raise print log exists_].
        cbn [disk ops console]. rewrite H0. cbv beta iota.
        cbn [disk ops console]. rewrite H1. cbn. discriminate. }
    destruct (disk w (core_path (Path dir))) as [e2|] eqn:H2.
    2:{ exfalso. revert Z. unfold main. cbn [nth List.length Nat.eqb].
        cbv beta iota zeta delta [bind ret raise print log exists_].
        cbn [disk ops console]. rewrite H0. cbv beta iota.
        cbn [disk ops console]. rewrite H1. cbv beta iota.
        cbn [disk ops console]. rewrite H2. cbn. discriminate. }
    destruct e1 as [ca|].
    2:{ exfalso. rewrite (main_directory_first prog dir w H0 H1 H2) in Z.
        discriminate. }
    destruct e2 as [core|].
    2:{ exfalso. rewrite (main_directory_second prog dir w H0 H1 H2) in Z.
        discriminate. }
    exists prog, dir, ca, core.
    split; [reflexivity|]. split; [rewrite H0; discriminate|].
    split; [exact H1|]. split; [exact H2|].
    rewrite (main_complete_run prog dir w H0 H1 H2) in Z.
    pose proof (verified_patched_both dir w H1 H2) as V.
    destruct (verify_patches (Path dir) (patched_both dir ca core w))
      as [r w3].
    cbn [fst] in V. subst r. rewrite verdict_ok in Z.
    destruct (forallb _ _) eqn:B1;
      destruct (contains marker_patched (patch_core_text core)) eqn:B2;
      cbn in Z; try discriminate.
    split; reflexivity.
  - intros (prog & dir & ca & core & -> & H0 & H1 & H2 & B1 & B2).
    destruct (disk w (Path dir)) as [e0|] eqn:E0; [|contradiction].
    rewrite (main_complete_run prog dir w E0 H1 H2).
    pose proof (verified_patched_both dir w H1 H2) as V.
    destruct (verify_patches (Path dir) (patched_both dir ca core w))
      as [r w3].
    cbn [fst] in V. subst r. rewrite verdict_ok, B1, B2. reflexivity.
Qed.

Lemma main_exit_zero_iff_witness :
  exit_status
    (fst (main ["patch-facefusion.py"%string; "checkout"%string] upstream))
  = 0.
Proof.
  apply (proj2 (main_exit_zero_iff
                  ["patch-facefusion.py"%string; "checkout"%string]
                  upstream)).
  exists "patch-facefusion.py"%string, "checkout"%string,
    content_analyser_py, core_py.
  split; [reflexivity|]. split; [discriminate|].
  split; [reflexivity|]. split; [reflexivity|].
  split; vm_compute; reflexivity.
Defined.

Lemma main_complete_disk (prog dir : string) (w : world) (e0 : entry)
  (ca core : text) :
  disk w (Path dir) = Some e0 ->
  disk w (content_analyser_path (Path dir)) = Some (File ca) ->
  disk w (core_path (Path dir)) = Some (File core) ->
  disk (snd (main [prog; dir] w)) = disk (patched_both dir ca core w) /\
  ops (snd (main [prog; dir] w)) =
    ops (patched_both dir ca core w) ++
    [OpExists (content_analyser_path (Path dir));
     OpRead (content_analyser_path (Path dir));
     OpExists (core_path (Path dir)); OpRead (core_path (Path dir))] /\
  fst (main [prog; dir] w) =
    (if forallb (fun m => contains m (patch_content_analyser_text ca))
          [marker_models_removed; marker_pre_check; marker_check_disabled]
        && contains marker_patched (patch_core_text core)
     then Ok tt else Raise (SystemExit 1)).
Proof.
  intros H0 H1 H2. rewrite (main_complete_run prog dir w H0 H1 H2).
  destruct (patched_both_disk dir w H1 H2) as (D1 & D2 & _).
  pose proof (verified_patched_both dir w H1 H2) as V.
  destruct (verify_patches_run (Path dir) (patched_both dir ca core w))
    as (_ & D & _).
  pose proof (verify_patches_ops_files (Path dir)
                (patched_both dir ca core w) D1 D2) as OV.
  destruct (verify_patches (Path dir) (patched_both dir ca core w))
    as [r w3].
  cbn [fst snd] in *. subst r. rewrite verdict_ok.
  destruct (forallb _ _ && _); cbn [verdict snd disk ops];
    now rewrite D, OV.
Qed.

(** X10: on a complete checkout whose once-rewritten texts are settled
    (every match a rule still finds is already its replacement), a second
    run of [main] attempts no write, leaves the disk as the first run
    left it, and ends as the first run ended. *)
Theorem second_run_on_settled_checkout (prog dir : string) (w : world)
  (e0 : entry) (ca core : text) :
  disk w (Path dir) = Some e0 ->
  disk w (content_analyser_path (Path dir)) = Some (File ca) ->
  disk w (core_path (Path dir)) = Some (File core) ->
  all_settled (rewrite (ca, core)) = true ->
  wrote (snd (main [prog; dir] w))
        (snd (main [prog; dir] (snd (main [prog; dir] w)))) = false /\
  disk (snd (main [prog; dir] (snd (main [prog; dir] w)))) =
    disk (snd (main [prog; dir] w)) /\
  fst (main [prog; dir] (snd (main [prog; dir] w))) =
    fst (main [prog; dir] w).
Proof.
  intros H0 H1 H2 S.
  destruct (main_complete_disk prog dir w H0 H1 H2) as (D & _ & F).
  destruct (patched_both_disk dir w H1 H2) as (D1 & D2 & D3 & _).
  apply all_settled_fixed in S. unfold rewrite in S. cbn [fst snd] in S.
  injection S as S1 S2.
  set (w1 := snd (main [prog; dir] w)) in *.
  assert (G0 : disk w1 (Path dir) = Some e0).
  { rewrite D, D3; [exact H0| |]; apply source_dir_not_target. }
  assert (G1 : disk w1 (content_analyser_path (Path dir)) =
               Some (File (patch_content_analyser_text ca)))
    by (now rewrite D).
  assert (G2 : disk w1 (core_path (Path dir)) =
               Some (File (patch_core_text core)))
    by (now rewrite D).
  destruct (main_complete_disk prog dir w1 G0 G1 G2) as (D' & O' & F').
  unfold patched_both in D', O'. cbv zeta in D', O'. cbn [disk ops] in D', O'.
  destruct (patched_world_fixed patch_core_text (core_path (Path dir))
              (patched_world patch_content_analyser_text
                 (content_analyser_path (Path dir))
                 (patch_content_analyser_text ca) (checked_world dir w1))
              S2) as [Pd Po].
  destruct (patched_world_fixed patch_content_analyser_text
              (content_analyser_path (Path dir)) (checked_world dir w1) S1)
    as [Qd Qo].
  rewrite Pd, Qd in D'. rewrite Po, Qo in O'.
  unfold checked_world in D', O'. cbn [disk ops] in D', O'.
  split; [|split].
  - unfold wrote, new_ops. rewrite O', <- !app_assoc, skipn_length_app.
    reflexivity.
  - exact D'.
  - rewrite F', F, S1, S2. reflexivity.
Qed.

Lemma second_run_on_settled_checkout_witness :
  disk upstream (Path "checkout") = Some Dir /\
  disk upstream (content_analyser_path (Path "checkout")) =
    Some (File content_analyser_py) /\
  disk upstream (core_path (Path "checkout")) = Some (File core_py) /\
  all_settled (rewrite (content_analyser_py, core_py)) = true /\
  wrote (snd (main ["patch-facefusion.py"%string; "checkout"%string]
                upstream))
        (snd (main ["patch-facefusion.py"%string; "checkout"%string]
                (snd (main ["patch-facefusion.py"%string;
                            "checkout"%string] upstream)))) = false.
Proof.
  assert (H0 : disk upstream (Path "checkout") = Some Dir) by reflexivity.
  assert (H1 : disk upstream (content_analyser_path (Path "checkout")) =
               Some (File content_analyser_py)) by reflexivity.
  assert (H2 : disk upstream (core_path (Path "checkout")) =
               Some (File core_py)) by reflexivity.
  assert (S : all_settled (rewrite (content_analyser_py, core_py)) = true)
    by (vm_compute; reflexivity).
  split; [exact H0|]. split; [exact H1|]. split; [exact H2|].
  split; [exact S|].
  exact (proj1 (second_run_on_settled_checkout "patch-facefusion.py"
                  "checkout" upstream H0 H1 H2 S)).
Defined.
